(** * The Searxng node: request normalisation and response post-processing

    A shallow embedding of [Searxng.execute]
    (src/nodes/Searxng/Searxng.node.ts) and the properties of its
    query resolution, parameter building, result filtering, envelope
    metadata and error policy. *)

From Stdlib Require Import ZArith Ascii String Lia.
From stdpp Require Import base option list strings pretty gmap.

Set Warnings "-register-all".

Local Open Scope string_scope.
Local Open Scope list_scope.
Local Open Scope Z_scope.

(** ** JavaScript values

    The data the node handles is dynamically typed: item payloads, the
    upstream response and the [categories] parameter are arbitrary values.
    Objects are finite maps from property names to values; a missing key
    and a key bound to [VUndefined] are different objects.

    Numbers are restricted to the integers and strings to ASCII text. *)

Inductive value : Type :=
  | VUndefined
  | VNull
  | VBool (b : bool)
  | VNum (n : Z)
  | VStr (s : string)
  | VArr (elems : list value)
  | VObj (props : gmap string value).

(** ToBoolean: what [if (v)], [v || w] and [!v] inspect. *)
Definition truthy (v : value) : bool :=
  match v with
  | VUndefined | VNull => false
  | VBool b => b
  | VNum n => negb (n =? 0)
  | VStr s => negb (String.eqb s "")
  | VArr _ | VObj _ => true
  end.

(** [a || b] *)
Definition js_or (a b : value) : value := if truthy a then a else b.

(** [typeof v === 'string'] *)
Definition is_string (v : value) : bool :=
  match v with VStr _ => true | _ => false end.

(** ToString, as used by template literals and by [Array.prototype.join].
    [join] renders [null] and [undefined] elements as the empty string. *)
Fixpoint to_string (v : value) : string :=
  match v with
  | VUndefined => "undefined"
  | VNull => "null"
  | VBool true => "true"
  | VBool false => "false"
  | VNum n => pretty n
  | VStr s => s
  | VArr elems =>
      String.concat ","
        (map (fun e => match e with
                       | VUndefined | VNull => ""
                       | _ => to_string e
                       end) elems)
  | VObj _ => "[object Object]"
  end.

Definition join_elem (e : value) : string :=
  match e with
  | VUndefined | VNull => ""
  | _ => to_string e
  end.

(** [elems.join(sep)] *)
Definition join (sep : string) (elems : list value) : string :=
  String.concat sep (map join_elem elems).

(** ** Strings: [split] and [trim] *)

(** [s.split(c)] for a one-character separator. *)
Fixpoint split (sep : ascii) (s : string) : list string :=
  match s with
  | EmptyString => [EmptyString]
  | String c rest =>
      if Ascii.eqb c sep then EmptyString :: split sep rest
      else match split sep rest with
           | [] => [String c EmptyString]
           | w :: ws => String c w :: ws
           end
  end.

(** WhiteSpace and LineTerminator code points of the ASCII range:
    TAB, LF, VT, FF, CR and SPACE. *)
Definition is_whitespace (c : ascii) : bool :=
  let n := nat_of_ascii c in
  ((9 <=? n) && (n <=? 13))%nat || (n =? 32)%nat.

Fixpoint trim_start (s : string) : string :=
  match s with
  | EmptyString => EmptyString
  | String c rest => if is_whitespace c then trim_start rest else s
  end.

(** [trim_end] keeps a character when it is not white space or when
    something is left of the text after it. *)
Fixpoint trim_end (s : string) : string :=
  match s with
  | EmptyString => EmptyString
  | String c rest =>
      match trim_end rest with
      | EmptyString => if is_whitespace c then EmptyString else String c EmptyString
      | kept => String c kept
      end
  end.

(** [s.trim()] *)
Definition trim (s : string) : string := trim_end (trim_start s).

(** ** Exceptions

    A [TypeError] is raised by the engine; its wording is the engine's
    own and is taken from the host ([typeErrorMessage] below).  The other
    errors carry the message they were created with. *)

Inductive type_error : Type :=
  | NotAFunction (callee : string)
  | ReadOfNullish (prop : string).

Inductive js_error : Type :=
  | TypeError (t : type_error)
  | NodeOperationError (msg : string)
  | HostError (msg : string).

(** The result of running a piece of the program.  [Unmodelled] marks a
    run that applies [delete] and object spread to a string or an array
    standing where a result record is expected: such a value has index
    properties and a [length] that cannot be deleted, and what a refused
    [delete] does depends on the mode the compiled code runs in, which
    the source does not fix.  Nothing is stated about such runs. *)
Inductive completion (A : Type) : Type :=
  | Normal (a : A)
  | Throw (e : js_error)
  | Unmodelled.
Arguments Normal {A} a.
Arguments Throw {A} e.
Arguments Unmodelled {A}.

#[global] Instance completion_ret : MRet completion := fun A a => Normal a.
#[global] Instance completion_bind : MBind completion := fun A B f c =>
  match c with
  | Normal a => f a
  | Throw e => Throw e
  | Unmodelled => Unmodelled
  end.

(** [v.k] for the property names this program reads ([query], [input],
    [prompt], [results], [snippet], [content], [apiUrl], [apiKey]): none
    of them is defined by a built-in prototype, so on anything but a
    plain object the read gives [undefined], and on [null] or
    [undefined] it raises. *)
Definition get_prop (v : value) (k : string) : completion value :=
  match v with
  | VUndefined | VNull => Throw (TypeError (ReadOfNullish k))
  | VObj props => Normal (default VUndefined (props !! k))
  | _ => Normal VUndefined
  end.

(** ** Node parameters *)

(** The declared type of the [additionalFields] collection. *)
Record additional_fields : Type := {
  af_language : option string;
  af_time_range : option string;
  af_safesearch : option string;
  af_filter : option string;
  af_format : option string;
  af_rawResponse : option bool;
  af_singleResponse : option bool
}.

(** Truthiness of an optional string or boolean field. *)
Definition truthy_str (o : option string) : bool :=
  match o with Some s => negb (String.eqb s "") | None => false end.

Definition truthy_flag (o : option bool) : bool :=
  match o with Some b => b | None => false end.

(** [o || d] for an optional string field. *)
Definition str_or (o : option string) (d : string) : string :=
  match o with
  | Some s => if String.eqb s "" then d else s
  | None => d
  end.

(** What [getNodeParameter(name, i)] returns for the five names the node
    asks for, with the types the source casts them to ([limit] and
    [pageno] are whole numbers); [categories] is kept as a value because
    the code tests its run-time type. *)
Record node_parameters : Type := {
  p_query : string;
  p_categories : value;
  p_additionalFields : additional_fields;
  p_limit : Z;
  p_pageno : Z
}.

(** ** Query resolution (lines 215-230) *)

Definition resolve_query (item : value) (param_query : string)
  : completion string :=
  if truthy item then
    q ← get_prop item "query";
    match q with
    | VStr s => Normal s
    | _ =>
        i ← get_prop item "input";
        match i with
        | VStr s => Normal s
        | _ =>
            p ← get_prop item "prompt";
            match p with
            | VStr s => Normal s
            | _ => Normal param_query
            end
        end
    end
  else Normal param_query.

(** ** Parameter building (lines 250-274) *)

Definition defaultFilters : string := "thumbnail, parsed_url , positions".

(** [(additionalFields.filter || defaultFilters)?.split(',')] *)
Definition filters_of (af : additional_fields) : list string :=
  split "," (str_or (af_filter af) defaultFilters).

(** [if (typeof categories === 'string') categories = [categories]] *)
Definition wrap_categories (categories : value) : value :=
  if is_string categories then VArr [categories] else categories.

(** [(categories || ['general']).join(",")]: only an array has [join]. *)
Definition categories_param (categories : value) : completion string :=
  match js_or (wrap_categories categories) (VArr [VStr "general"]) with
  | VArr elems => Normal (join "," elems)
  | _ => Throw (TypeError (NotAFunction "join"))
  end.

Definition set_if (c : bool) (k : string) (v : value)
    (o : gmap string value) : gmap string value :=
  if c then <[k := v]> o else o.

(** The [queryParameters] object once the categories string is known:
    the literal with [q], [categories] and [format], then the four
    conditional assignments. *)
Definition query_parameters (query cats : string) (af : additional_fields)
    (pageno : Z) : gmap string value :=
  let qp : gmap string value :=
    <["format" := VStr (str_or (af_format af) "json")]>
      (<["categories" := VStr cats]> (<["q" := VStr query]> ∅)) in
  let qp := set_if (truthy_str (af_language af)) "language"
              (VStr (default "" (af_language af))) qp in
  let qp := set_if (truthy_str (af_time_range af)) "time_range"
              (VStr (default "" (af_time_range af))) qp in
  let qp := set_if (truthy_str (af_safesearch af)) "safesearch"
              (VStr (default "" (af_safesearch af))) qp in
  set_if (0 <? pageno) "pageno" (VNum pageno) qp.

(** The parameters handed to the transport; evaluating the [categories]
    entry of the literal may raise. *)
Definition build_query_parameters (query : string) (categories : value)
    (af : additional_fields) (pageno : Z) : completion (gmap string value) :=
  cats ← categories_param categories;
  Normal (query_parameters query cats af pageno).

(** ** Result processing (lines 289-343) *)

(** One step of the [filters.forEach] callback: [delete result[f.trim()]]
    unless the trimmed name is empty. *)
Definition delete_field (result : gmap string value) (f : string)
  : gmap string value :=
  let fieldName := trim f in
  if negb (String.eqb fieldName "") then delete fieldName result else result.

(** [if (filters && filters.length > 0) filters.forEach(...)] *)
Definition apply_filters (filters : list string) (result : gmap string value)
  : gmap string value :=
  match filters with
  | [] => result
  | _ :: _ => foldl delete_field result filters
  end.

(** The callback of [response.results.map]: the snippet is read first,
    the fields are deleted from the raw item in place, and a fresh object
    is built from what is left plus [snippet].  A boolean or a number
    has no own properties to delete or to copy. *)
Definition process_result (filters : list string) (result : value)
  : completion (gmap string value) :=
  s ← get_prop result "snippet";
  snippet ← (if truthy s then Normal s else get_prop result "content");
  match result with
  | VObj props => Normal (<["snippet" := snippet]> (apply_filters filters props))
  | VStr _ | VArr _ => Unmodelled
  | _ => Normal (<["snippet" := snippet]> ∅)
  end.

(** The raw item as the deletions leave it. *)
Definition mutate_result (filters : list string) (result : value) : value :=
  match result with
  | VObj props => VObj (apply_filters filters props)
  | _ => result
  end.

(** The response object after the [map]: it is the same object the
    transport returned, so its items have lost the filtered fields. *)
Definition mutate_response (filters : list string) (response : value) : value :=
  match response with
  | VObj props =>
      match props !! "results" with
      | Some (VArr elems) =>
          VObj (<["results" := VArr (map (mutate_result filters) elems)]> props)
      | _ => response
      end
  | _ => response
  end.

Record metadata : Type := {
  total : nat;
  totalReturned : nat;
  filtered : bool;
  queryParameters : gmap string value;
  additionalFields : additional_fields
}.

(** The [json] payload of one output item. *)
Inductive envelope : Type :=
  | Success (meta : metadata) (query : string) (answer : value)
      (results : list (gmap string value)) (rawResponse : value)
  | Failure (error : string) (query : string).

Definition success (e : envelope) : bool :=
  match e with Success _ _ _ _ _ => true | Failure _ _ => false end.

(** [o.content || o.snippet] on a processed result. *)
Definition content_or_snippet (o : gmap string value) : value :=
  js_or (default VUndefined (o !! "content")) (default VUndefined (o !! "snippet")).

(** Lines 318-324: the answer and the results that are kept. *)
Definition select_results (singleResponse : bool) (limit : Z)
    (results : list (gmap string value)) : value * list (gmap string value) :=
  match singleResponse, results with
  | true, first :: _ => (content_or_snippet first, [first])
  | _, _ =>
      if (0 <? limit) && (limit <? Z.of_nat (length results))
      then (VUndefined, take (Z.to_nat limit) results)
      else (VUndefined, results)
  end.

(** Lines 289-307: the processed results, in upstream order; anything
    but an array under [results] counts as no results. *)
Definition processed_results (filters : list string) (response : value)
  : completion (list (gmap string value)) :=
  r ← get_prop response "results";
  match r with
  | VArr elems => mapM (process_result filters) elems
  | _ => Normal []
  end.

Definition process_response (af : additional_fields) (limit : Z)
    (query : string) (qp : gmap string value) (response : value)
  : completion envelope :=
  let filters := filters_of af in
  results ← processed_results filters response;
  let '(answer, kept) :=
    select_results (truthy_flag (af_singleResponse af)) limit results in
  let meta := {| total := length results;
                 totalReturned := length kept;
                 filtered := negb (length kept =? length results)%nat;
                 queryParameters := qp;
                 additionalFields := af |} in
  let rawResponse :=
    if truthy_flag (af_rawResponse af) then mutate_response filters response
    else VUndefined in
  Normal (Success meta query answer kept rawResponse).

(** ** The host and the batch loop (lines 200-369) *)

Record http_request : Type := {
  method : string;
  url : string;
  qs : gmap string value;
  headers : gmap string string
}.

(** [IExecuteFunctions], as far as [execute] uses it.  The transport is
    asked once per item, so its answer is indexed by the item's position.
    Reading the input and the parameters is taken to succeed.  Output
    items are represented by their [json] payload; the two [console]
    calls leave no trace in the result and are dropped. *)
Record host : Type := {
  getInputData : list value;
  getCredentials : completion value;
  getNodeParameter : nat -> node_parameters;
  httpRequest : nat -> http_request -> completion value;
  continueOnFail : bool;
  typeErrorMessage : type_error -> string
}.

(** [error.message] *)
Definition message (h : host) (error : js_error) : string :=
  match error with
  | TypeError t => typeErrorMessage h t
  | NodeOperationError msg => msg
  | HostError msg => msg
  end.

(** The argument of [this.helpers.httpRequest]. *)
Definition request_for (credentials : value) (qp : gmap string value)
  : completion http_request :=
  apiUrl ← get_prop credentials "apiUrl";
  apiKey ← get_prop credentials "apiKey";
  Normal {| method := "GET";
            url := to_string apiUrl +:+ "/search";
            qs := qp;
            headers := <["Authorization" := "Bearer " +:+ to_string apiKey]>
                         (<["Accept" := "application/json"]> ∅) |}.

(** What precedes the inner [try] in one iteration: the query and the
    outbound parameters. *)
Definition prepare (item : value) (p : node_parameters)
  : completion (string * gmap string value) :=
  query ← resolve_query item (p_query p);
  qp ← build_query_parameters query (p_categories p)
          (p_additionalFields p) (p_pageno p);
  Normal (query, qp).

(** The body of the inner [try]. *)
Definition attempt (h : host) (credentials : value) (i : nat)
    (p : node_parameters) (query : string) (qp : gmap string value)
  : completion envelope :=
  request ← request_for credentials qp;
  response ← httpRequest h i request;
  process_response (p_additionalFields p) (p_limit p) query qp response.

(** The [for] loop from index [i] on.  [returnData] is the output list
    built so far; it is returned together with the way the loop ended,
    because the outer [catch] hands it out when an exception escapes. *)
Fixpoint loop (h : host) (credentials : value) (i : nat) (items : list value)
    (returnData : list envelope) : list envelope * completion unit :=
  match items with
  | [] => (returnData, Normal ())
  | item :: rest =>
      let p := getNodeParameter h i in
      match prepare item p with
      | Normal (query, qp) =>
          match attempt h credentials i p query qp with
          | Normal env => loop h credentials (S i) rest (returnData ++ [env])
          | Throw error =>
              if continueOnFail h
              then loop h credentials (S i) rest
                     (returnData ++ [Failure (message h error) query])
              else (returnData, Throw error)
          | Unmodelled => (returnData, Unmodelled)
          end
      | Throw error => (returnData, Throw error)
      | Unmodelled => (returnData, Unmodelled)
      end
  end.

(** The outer [try] block: credentials, then the loop. *)
Definition run (h : host) : list envelope * completion unit :=
  match getCredentials h with
  | Normal credentials =>
      if truthy credentials then loop h credentials 0 (getInputData h) []
      else ([], Throw (NodeOperationError "No credentials got returned!"))
  | Throw error => ([], Throw error)
  | Unmodelled => ([], Unmodelled)
  end.

(** The outer [catch] and the two [return [returnData]]. *)
Definition finish (h : host) (r : list envelope * completion unit)
  : completion (list (list envelope)) :=
  match r with
  | (returnData, Normal _) => Normal [returnData]
  | (returnData, Throw error) =>
      if continueOnFail h then Normal [returnData] else Throw error
  | (_, Unmodelled) => Unmodelled
  end.

Definition execute (h : host) : completion (list (list envelope)) :=
  finish h (run h).

(** ** Readings of the specification *)

(** The field [k] of a raw item or input payload, [undefined] when the
    value has no such field. *)
Definition field (v : value) (k : string) : value :=
  match v with
  | VObj props => default VUndefined (props !! k)
  | _ => VUndefined
  end.

(** The field [k] of an item when it holds a string. *)
Definition string_field (item : value) (k : string) : option string :=
  match field item k with
  | VStr s => Some s
  | _ => None
  end.

(** Section 4.1 of the specification: the first of [query], [input] and
    [prompt] that is a string, else the configured parameter. *)
Definition resolve_query_spec (item : value) (param_query : string) : string :=
  match string_field item "query" with
  | Some s => s
  | None =>
      match string_field item "input" with
      | Some s => s
      | None =>
          match string_field item "prompt" with
          | Some s => s
          | None => param_query
          end
      end
  end.

(** A [categories] value of none of the four expected kinds. *)
Definition malformed_categories (categories : value) : bool :=
  match categories with
  | VStr _ | VArr _ | VNull | VUndefined => false
  | VBool _ | VNum _ | VObj _ => true
  end.

(** How credential resolution fails, if it does: the store rejects, or
    it hands back a falsy value. *)
Definition credential_failure (h : host) : option js_error :=
  match getCredentials h with
  | Throw error => Some error
  | Normal credentials =>
      if truthy credentials then None
      else Some (NodeOperationError "No credentials got returned!")
  | Unmodelled => None
  end.

Definition answer_of (e : envelope) : value :=
  match e with
  | Success _ _ answer _ _ => answer
  | Failure _ _ => VUndefined
  end.

Definition results_of (e : envelope) : list (gmap string value) :=
  match e with
  | Success _ _ _ results _ => results
  | Failure _ _ => []
  end.

(** The collection [af] with its [filter] entry replaced. *)
Definition with_filter (f : option string) (af : additional_fields)
  : additional_fields :=
  {| af_language := af_language af; af_time_range := af_time_range af;
     af_safesearch := af_safesearch af; af_filter := f;
     af_format := af_format af; af_rawResponse := af_rawResponse af;
     af_singleResponse := af_singleResponse af |}.

(** An [additionalFields] collection with nothing set. *)
Definition no_fields : additional_fields :=
  {| af_language := None; af_time_range := None; af_safesearch := None;
     af_filter := None; af_format := None; af_rawResponse := None;
     af_singleResponse := None |}.

(** ** Sample data *)

(** An upstream answer with three hits. *)
Definition three_hits : value :=
  VObj {[ "results" :=
    VArr [ VObj {[ "title" := VStr "A"; "content" := VStr "c1";
                   "thumbnail" := VStr "x" ]};
           VObj {[ "title" := VStr "B"; "content" := VStr "c2" ]};
           VObj {[ "title" := VStr "C"; "snippet" := VStr "s3" ]} ] ]}.

Definition hit_A : gmap string value :=
  {[ "title" := VStr "A"; "content" := VStr "c1"; "snippet" := VStr "c1" ]}.
Definition hit_B : gmap string value :=
  {[ "title" := VStr "B"; "content" := VStr "c2"; "snippet" := VStr "c2" ]}.
Definition hit_C : gmap string value :=
  {[ "title" := VStr "C"; "snippet" := VStr "s3" ]}.

Definition single_fields : additional_fields :=
  {| af_language := None; af_time_range := None; af_safesearch := None;
     af_filter := None; af_format := None; af_rawResponse := None;
     af_singleResponse := Some true |}.

(** A batch of three items whose second transport call fails. *)
Definition item_cats : value := VObj {[ "query" := VStr "cats" ]}.
Definition item_dogs : value := VObj {[ "input" := VStr "dogs" ]}.
Definition item_bare : value := VObj ∅.

Definition sample_items : list value := [item_cats; item_dogs; item_bare].

Definition sample_credentials : value :=
  VObj {[ "apiUrl" := VStr "https://searxng.example.com";
          "apiKey" := VStr "test-api-key" ]}.

Definition sample_host (continue : bool) : host :=
  {| getInputData := sample_items;
     getCredentials := Normal sample_credentials;
     getNodeParameter := fun _ =>
       {| p_query := "test query"; p_categories := VArr [VStr "general"];
          p_additionalFields := no_fields; p_limit := 2; p_pageno := 0 |};
     httpRequest := fun i _ =>
       if (i =? 1)%nat then Throw (HostError "API error") else Normal three_hits;
     continueOnFail := continue;
     typeErrorMessage := fun _ => "TypeError" |}.

(** What the sample host sends for, and gets back on, a successful item. *)
Definition sample_parameters (query : string) : gmap string value :=
  query_parameters query "general" no_fields 0.

Definition sample_request (query : string) : http_request :=
  {| method := "GET";
     url := "https://searxng.example.com/search";
     qs := sample_parameters query;
     headers := {[ "Accept" := "application/json";
                   "Authorization" := "Bearer test-api-key" ]} |}.

Definition sample_success (query : string) : envelope :=
  Success {| total := 3; totalReturned := 2; filtered := true;
             queryParameters := sample_parameters query;
             additionalFields := no_fields |}
    query VUndefined [hit_A; hit_B] VUndefined.

(** A host whose credential store hands back [null]. *)
Definition no_credentials_host (continue : bool) : host :=
  {| getInputData := sample_items;
     getCredentials := Normal VNull;
     getNodeParameter := getNodeParameter (sample_host continue);
     httpRequest := httpRequest (sample_host continue);
     continueOnFail := continue;
     typeErrorMessage := fun _ => "TypeError" |}.

(** ** Further readings of the code *)

(** An optional string field that counts as given: present and not empty. *)
Definition given (o : option string) : option string :=
  match o with
  | Some s => if String.eqb s "" then None else Some s
  | None => None
  end.

(** The names under which the node ever sends a parameter. *)
Definition parameter_names : gset string :=
  {[ "q"; "categories"; "format"; "language"; "time_range"; "safesearch";
     "pageno" ]}.

(** Whether the filter list names the field [k]: [k] is not empty and is
    one of the tokens once trimmed. *)
Definition deleted_by (filters : list string) (k : string) : bool :=
  negb (String.eqb k "") && existsb (fun f => String.eqb (trim f) k) filters.


Definition query_of (e : envelope) : string :=
  match e with
  | Success _ query _ _ _ => query
  | Failure _ query => query
  end.

Definition rawResponse_of (e : envelope) : value :=
  match e with
  | Success _ _ _ _ rawResponse => rawResponse
  | Failure _ _ => VUndefined
  end.

Definition meta_of (e : envelope) : option metadata :=
  match e with
  | Success meta _ _ _ _ => Some meta
  | Failure _ _ => None
  end.


(** A hit as the callback emits it when the raw hit is an object. *)
Definition emitted_hit (filters : list string) (props : gmap string value)
  : gmap string value :=
  <["snippet" := js_or (field (VObj props) "snippet")
                       (field (VObj props) "content")]>
    (apply_filters filters props).

Definition is_array (v : value) : bool :=
  match v with VArr _ => true | _ => false end.

Definition nullish (v : value) : bool :=
  match v with VUndefined | VNull => true | _ => false end.

(** The default of the "Fields Filter" property in the node description
    (line 166). *)
Definition filter_property_default : string := "thumbnail,positions,parsed_url".

(** The three raw hits of [three_hits]. *)
Definition raw_hits : list (gmap string value) :=
  [ {[ "title" := VStr "A"; "content" := VStr "c1"; "thumbnail" := VStr "x" ]};
    {[ "title" := VStr "B"; "content" := VStr "c2" ]};
    {[ "title" := VStr "C"; "snippet" := VStr "s3" ]} ].

Definition raw_fields : additional_fields :=
  {| af_language := None; af_time_range := None; af_safesearch := None;
     af_filter := Some "content"; af_format := None;
     af_rawResponse := Some true; af_singleResponse := Some true |}.

(** The query resolved for each item of a batch, from position [i] on. *)
Fixpoint resolved_queries (h : host) (i : nat) (items : list value)
  : list string :=
  match items with
  | [] => []
  | item :: rest =>
      resolve_query_spec item (p_query (getNodeParameter h i))
      :: resolved_queries h (S i) rest
  end.

(** A host whose second item comes with the number [5] as categories. *)
Definition bad_categories_host (continue : bool) : host :=
  {| getInputData := sample_items;
     getCredentials := Normal sample_credentials;
     getNodeParameter := fun i =>
       {| p_query := "test query";
          p_categories := if (i =? 1)%nat then VNum 5 else VArr [VStr "general"];
          p_additionalFields := no_fields; p_limit := 2; p_pageno := 0 |};
     httpRequest := fun _ _ => Normal three_hits;
     continueOnFail := continue;
     typeErrorMessage := fun _ => "TypeError" |}.

(** A host whose transport answers [null] to the second item. *)
Definition null_response_host : host :=
  {| getInputData := sample_items;
     getCredentials := Normal sample_credentials;
     getNodeParameter := getNodeParameter (sample_host true);
     httpRequest := fun i _ =>
       if (i =? 1)%nat then Normal VNull else Normal three_hits;
     continueOnFail := true;
     typeErrorMessage := fun t =>
       match t with
       | ReadOfNullish prop => "Cannot read properties of null: " +:+ prop
       | NotAFunction callee => callee +:+ " is not a function"
       end |}.

(** A host whose transport always answers with the three hits. *)
Definition steady_host (continue : bool) : host :=
  {| getInputData := sample_items;
     getCredentials := Normal sample_credentials;
     getNodeParameter := getNodeParameter (sample_host continue);
     httpRequest := fun _ _ => Normal three_hits;
     continueOnFail := continue;
     typeErrorMessage := fun _ => "TypeError" |}.

(** The envelope one iteration appends for [item] at position [i], if it
    appends one: the attempt's envelope, or the failure envelope under
    continuation. *)
Definition item_envelope (h : host) (credentials : value) (i : nat)
    (item : value) : option envelope :=
  let p := getNodeParameter h i in
  match prepare item p with
  | Normal (query, qp) =>
      match attempt h credentials i p query qp with
      | Normal env => Some env
      | Throw error =>
          if continueOnFail h then Some (Failure (message h error) query)
          else None
      | Unmodelled => None
      end
  | _ => None
  end.

(** * Properties *)

(** ** Values and strings *)

Lemma to_string_array elems : to_string (VArr elems) = join "," elems.
Proof. reflexivity. Qed.

Lemma join_strings sep (l : list string) :
  join sep (map VStr l) = String.concat sep l.
Proof.
  unfold join. f_equal.
  induction l as [|s l IH]; simpl; [done | by rewrite IH].
Qed.

Lemma js_or_truthy a b : truthy a = true -> js_or a b = a.
Proof. unfold js_or. by intros ->. Qed.

Lemma js_or_falsy a b : truthy a = false -> js_or a b = b.
Proof. unfold js_or. by intros ->. Qed.

(** ** Query resolution *)

Lemma get_prop_truthy item k :
  truthy item = true -> get_prop item k = Normal (field item k).
Proof. by destruct item. Qed.

Lemma field_falsy item k : truthy item = false -> field item k = VUndefined.
Proof. by destruct item. Qed.

(** C6: the query is the item's [query] field when that is a string, else
    its [input] field when that is a string, else its [prompt] field when
    that is a string, else the configured parameter; resolution never
    raises. *)
Theorem resolve_query_first_match (item : value) (param_query : string) :
  resolve_query item param_query
  = Normal (resolve_query_spec item param_query).
Proof.
  unfold resolve_query, resolve_query_spec, string_field.
  destruct (truthy item) eqn:Ht.
  - rewrite !(get_prop_truthy _ _ Ht). simpl.
    destruct (field item "query"); simpl; try done;
      destruct (field item "input"); simpl; try done;
      destruct (field item "prompt"); simpl; done.
  - by rewrite !(field_falsy _ _ Ht).
Qed.

(** ** Parameter building *)

Lemma lookup_set_if_ne c k k' v (o : gmap string value) :
  k ≠ k' -> set_if c k v o !! k' = o !! k'.
Proof. intros Hne. unfold set_if. destruct c; [by rewrite lookup_insert_ne | done]. Qed.

Lemma lookup_set_if_eq c k v (o : gmap string value) :
  set_if c k v o !! k = if c then Some v else o !! k.
Proof. unfold set_if. destruct c; [by rewrite lookup_insert_eq | done]. Qed.

Lemma query_parameters_categories query cats af pageno :
  query_parameters query cats af pageno !! "categories" = Some (VStr cats).
Proof.
  unfold query_parameters.
  rewrite !lookup_set_if_ne by done.
  rewrite lookup_insert_ne by done. by rewrite lookup_insert_eq.
Qed.

Lemma query_parameters_pageno query cats af pageno :
  query_parameters query cats af pageno !! "pageno"
  = if 0 <? pageno then Some (VNum pageno) else None.
Proof.
  unfold query_parameters.
  rewrite lookup_set_if_eq. destruct (0 <? pageno); [done |].
  rewrite !lookup_set_if_ne by done.
  by rewrite !lookup_insert_ne by done.
Qed.

Lemma categories_param_string s : categories_param (VStr s) = Normal s.
Proof. reflexivity. Qed.

Lemma categories_param_list elems :
  categories_param (VArr elems) = Normal (join "," elems).
Proof. reflexivity. Qed.

Lemma categories_param_falsy c :
  is_string c = false -> truthy c = false -> categories_param c = Normal "general".
Proof.
  intros Hs Ht. unfold categories_param, wrap_categories.
  rewrite Hs. by rewrite js_or_falsy.
Qed.

Lemma categories_param_malformed_truthy c :
  malformed_categories c = true -> truthy c = true ->
  categories_param c = Throw (TypeError (NotAFunction "join")).
Proof.
  intros Hm Ht. destruct c; try done;
    unfold categories_param, wrap_categories; simpl;
    rewrite js_or_truthy; done.
Qed.

(** C1, as the code has it: a bare string [s] gives [categories=s]; a list
    of strings gives its elements joined with commas, the empty list
    included (it gives the empty string); [null] and [undefined] give
    [categories="general"]. *)
Theorem categories_parameter (query : string) (af : additional_fields)
    (pageno : Z) :
  (forall s : string, exists qp,
      build_query_parameters query (VStr s) af pageno = Normal qp
      /\ qp !! "categories" = Some (VStr s))
  /\ (forall l : list string, exists qp,
      build_query_parameters query (VArr (map VStr l)) af pageno = Normal qp
      /\ qp !! "categories" = Some (VStr (String.concat "," l)))
  /\ (exists qp,
      build_query_parameters query VNull af pageno = Normal qp
      /\ qp !! "categories" = Some (VStr "general"))
  /\ (exists qp,
      build_query_parameters query VUndefined af pageno = Normal qp
      /\ qp !! "categories" = Some (VStr "general")).
Proof.
  unfold build_query_parameters.
  split; [| split; [| split]].
  - intros s. eexists. split; [by rewrite categories_param_string |].
    apply query_parameters_categories.
  - intros l. eexists. split; [by rewrite categories_param_list |].
    rewrite query_parameters_categories. by rewrite join_strings.
  - eexists. split; [reflexivity |]. apply query_parameters_categories.
  - eexists. split; [reflexivity |]. apply query_parameters_categories.
Qed.

(** An empty list of categories is sent as the empty string, not as
    ["general"]. *)
Lemma categories_empty_list_not_general :
  exists qp,
    build_query_parameters "cats" (VArr []) no_fields 0 = Normal qp
    /\ qp !! "categories" = Some (VStr "")
    /\ qp !! "categories" <> Some (VStr "general").
Proof.
  eexists. split; [reflexivity |].
  rewrite query_parameters_categories. split; [done | discriminate].
Qed.

(** C7, as the code has it: a [categories] value that is neither a
    string, a list, [null] nor [undefined] is treated like [null] when it
    is falsy ([false], [0]); when it is truthy ([true], a non-zero number,
    an object) it has no [join] and parameter building raises a
    [TypeError]. *)
Theorem malformed_categories_parameter (query : string) (c : value)
    (af : additional_fields) (pageno : Z) :
  malformed_categories c = true ->
  build_query_parameters query c af pageno
  = (if truthy c then Throw (TypeError (NotAFunction "join"))
     else build_query_parameters query VNull af pageno)
  /\ exists qp,
       build_query_parameters query VNull af pageno = Normal qp
       /\ qp !! "categories" = Some (VStr "general").
Proof.
  intros Hm. unfold build_query_parameters. split.
  - destruct (truthy c) eqn:Ht.
    + by rewrite categories_param_malformed_truthy.
    + by rewrite categories_param_falsy by (by destruct c).
  - eexists. split; [reflexivity |]. apply query_parameters_categories.
Qed.

Lemma malformed_categories_parameter_witness :
  malformed_categories (VBool false) = true
  /\ build_query_parameters "cats" (VBool false) no_fields 0
     = (if truthy (VBool false) then Throw (TypeError (NotAFunction "join"))
        else build_query_parameters "cats" VNull no_fields 0)
  /\ exists qp,
       build_query_parameters "cats" VNull no_fields 0 = Normal qp
       /\ qp !! "categories" = Some (VStr "general").
Proof.
  split; [reflexivity |].
  apply (malformed_categories_parameter "cats" (VBool false) no_fields 0).
  reflexivity.
Defined.

(** The number [5] as [categories] makes parameter building raise, where
    [null] gives [categories="general"]. *)
Lemma categories_number_raises :
  malformed_categories (VNum 5) = true
  /\ build_query_parameters "cats" (VNum 5) no_fields 0
     = Throw (TypeError (NotAFunction "join"))
  /\ build_query_parameters "cats" (VNum 5) no_fields 0
     <> build_query_parameters "cats" VNull no_fields 0.
Proof. split; [reflexivity |]. split; [reflexivity | discriminate]. Qed.

(** C9: the outbound parameters have a [pageno] key exactly when [pageno]
    is strictly greater than [0], and the key then holds that number. *)
Theorem pageno_iff_positive (query : string) (categories : value)
    (af : additional_fields) (pageno : Z) (qp : gmap string value) :
  build_query_parameters query categories af pageno = Normal qp ->
  (is_Some (qp !! "pageno") <-> 0 < pageno)
  /\ qp !! "pageno" = (if 0 <? pageno then Some (VNum pageno) else None).
Proof.
  unfold build_query_parameters.
  destruct (categories_param categories) as [cats | |]; simpl; try done.
  intros [= <-]. rewrite query_parameters_pageno.
  destruct (Z.ltb_spec 0 pageno) as [Hlt | Hge].
  - split; [split; [done | by eexists] | done].
  - split; [split; [intros [? ?]; done | lia] | done].
Qed.

Lemma pageno_iff_positive_witness :
  build_query_parameters "cats" (VArr [VStr "general"; VStr "it"]) no_fields 2
  = Normal (query_parameters "cats" "general,it" no_fields 2)
  /\ (is_Some (query_parameters "cats" "general,it" no_fields 2 !! "pageno")
      <-> 0 < 2)
  /\ query_parameters "cats" "general,it" no_fields 2 !! "pageno"
     = (if 0 <? 2 then Some (VNum 2) else None).
Proof.
  split; [reflexivity |].
  apply (pageno_iff_positive "cats" (VArr [VStr "general"; VStr "it"])
           no_fields 2).
  reflexivity.
Defined.

(** Page [0] leaves the key out; page [2] is sent as [pageno=2]. *)
Example pageno_zero_omitted :
  build_query_parameters "cats" (VArr [VStr "general"]) no_fields 0
  = Normal (<["format" := VStr "json"]>
              (<["categories" := VStr "general"]> (<["q" := VStr "cats"]> ∅))).
Proof. reflexivity. Qed.

(** ** Field filtering *)




(** The unit tests of the filter: the default list, and a list given
    with white space around its names. *)
Example default_filter_on_hit :
  process_result (filters_of no_fields)
    (VObj {[ "title" := VStr "T"; "content" := VStr "C";
             "thumbnail" := VStr "X"; "parsed_url" := VStr "P";
             "positions" := VArr [VNum 1] ]})
  = Normal {[ "title" := VStr "T"; "content" := VStr "C";
              "snippet" := VStr "C" ]}.
Proof. reflexivity. Qed.

Example spaced_filter_on_hit :
  process_result (filters_of (with_filter (Some " title , content ") no_fields))
    (VObj {[ "title" := VStr "T"; "url" := VStr "U"; "content" := VStr "C";
             "thumbnail" := VStr "X"; "parsed_url" := VStr "P" ]})
  = Normal {[ "url" := VStr "U"; "thumbnail" := VStr "X";
              "parsed_url" := VStr "P"; "snippet" := VStr "C" ]}.
Proof. reflexivity. Qed.

(** ** Result processing *)

(** A plain object is always processed: what is left of it after the
    deletions, with the snippet saved beforehand written on top. *)
Lemma process_result_object filters (props : gmap string value) :
  process_result filters (VObj props)
  = Normal (<["snippet" := js_or (field (VObj props) "snippet")
                                 (field (VObj props) "content")]>
              (apply_filters filters props)).
Proof.
  unfold process_result, js_or. simpl.
  by destruct (truthy (default VUndefined (props !! "snippet"))).
Qed.

(** C2: every emitted result has a [snippet] key, holding the raw item's
    [snippet] field or else its [content] field as they were before any
    field was deleted; this is so whatever the filter list names, and
    when both fields are absent the key holds [undefined]. *)
Theorem snippet_always_written (filters : list string) (result : value)
    (emitted : gmap string value) :
  process_result filters result = Normal emitted ->
  emitted !! "snippet"
  = Some (js_or (field result "snippet") (field result "content")).
Proof.
  destruct result as [| | b | n | s | elems | props]; try done.
  - intros [= <-]. by rewrite lookup_insert_eq.
  - intros [= <-]. by rewrite lookup_insert_eq.
  - rewrite process_result_object. intros [= <-]. by rewrite lookup_insert_eq.
Qed.

Lemma snippet_always_written_witness :
  process_result ["snippet"; " content "; "title"]
    (VObj {[ "title" := VStr "T"; "content" := VStr "C" ]})
  = Normal {[ "snippet" := VStr "C" ]}
  /\ ({[ "snippet" := VStr "C" ]} : gmap string value) !! "snippet"
     = Some (js_or (field (VObj {[ "title" := VStr "T"; "content" := VStr "C" ]})
                      "snippet")
                   (field (VObj {[ "title" := VStr "T"; "content" := VStr "C" ]})
                      "content")).
Proof.
  split; [reflexivity |].
  apply (snippet_always_written ["snippet"; " content "; "title"]
           (VObj {[ "title" := VStr "T"; "content" := VStr "C" ]})).
  reflexivity.
Defined.

Lemma select_results_single first rest limit :
  select_results true limit (first :: rest) = (content_or_snippet first, [first]).
Proof. reflexivity. Qed.

Lemma select_results_no_answer limit results :
  (select_results false limit results).1 = VUndefined.
Proof.
  unfold select_results.
  by destruct results, ((0 <? limit) && (limit <? Z.of_nat _)).
Qed.

(** C3: when at least one result was processed and [singleResponse] is
    set, [answer] is the first result's [content], or else its [snippet],
    and [results] is that first result alone, whatever the limit; when
    [singleResponse] is not set, no answer is set. *)
Theorem single_response_takes_first (af : additional_fields) (limit : Z)
    (query : string) (qp : gmap string value) (response : value)
    (first : gmap string value) (rest : list (gmap string value)) :
  processed_results (filters_of af) response = Normal (first :: rest) ->
  exists env,
    process_response af limit query qp response = Normal env
    /\ if truthy_flag (af_singleResponse af)
       then answer_of env = js_or (default VUndefined (first !! "content"))
                                  (default VUndefined (first !! "snippet"))
            /\ results_of env = [first]
       else answer_of env = VUndefined.
Proof.
  intros Hres. unfold process_response. rewrite Hres. simpl.
  destruct (truthy_flag (af_singleResponse af)) eqn:Hs.
  - rewrite select_results_single. eexists. by split.
  - pose proof (select_results_no_answer limit (first :: rest)) as Hno.
    destruct (select_results false limit (first :: rest)) as [answer kept].
    simpl in Hno. subst answer. eexists. by split.
Qed.

(** C4: in a successful envelope [total] is the number of processed
    results, [totalReturned] the length of the results that are returned,
    and [filtered] holds exactly when the two differ. *)
Theorem metadata_counts (af : additional_fields) (limit : Z) (query : string)
    (qp : gmap string value) (response : value) (env : envelope) :
  process_response af limit query qp response = Normal env ->
  exists processed meta answer kept raw,
    processed_results (filters_of af) response = Normal processed
    /\ env = Success meta query answer kept raw
    /\ total meta = length processed
    /\ totalReturned meta = length kept
    /\ (filtered meta = true <-> totalReturned meta <> total meta).
Proof.
  unfold process_response.
  destruct (processed_results (filters_of af) response)
    as [processed | |]; simpl; try done.
  destruct (select_results _ limit processed) as [answer kept].
  intros [= <-]. do 5 eexists.
  split; [reflexivity |]. split; [reflexivity |]. simpl.
  split; [done |]. split; [done |].
  rewrite negb_true_iff. apply Nat.eqb_neq.
Qed.

Lemma single_response_takes_first_witness :
  processed_results (filters_of single_fields) three_hits
  = Normal (hit_A :: [hit_B; hit_C])
  /\ exists env,
       process_response single_fields 10 "cats" ∅ three_hits = Normal env
       /\ if truthy_flag (af_singleResponse single_fields)
          then answer_of env = js_or (default VUndefined (hit_A !! "content"))
                                     (default VUndefined (hit_A !! "snippet"))
               /\ results_of env = [hit_A]
          else answer_of env = VUndefined.
Proof.
  split; [reflexivity |].
  apply (single_response_takes_first single_fields 10 "cats" ∅ three_hits
           hit_A [hit_B; hit_C]).
  reflexivity.
Defined.

(** Three hits, limit [10], [singleResponse] set: one result, and the
    first hit's content as the answer. *)
Example single_response_of_three :
  process_response single_fields 10 "cats" ∅ three_hits
  = Normal (Success {| total := 3; totalReturned := 1; filtered := true;
                       queryParameters := ∅;
                       additionalFields := single_fields |}
              "cats" (VStr "c1") [hit_A] VUndefined).
Proof. reflexivity. Qed.

Lemma metadata_counts_witness :
  process_response no_fields 2 "cats" ∅ three_hits
  = Normal (Success {| total := 3; totalReturned := 2; filtered := true;
                       queryParameters := ∅; additionalFields := no_fields |}
              "cats" VUndefined [hit_A; hit_B] VUndefined)
  /\ exists processed meta answer kept raw,
       processed_results (filters_of no_fields) three_hits = Normal processed
       /\ Success {| total := 3; totalReturned := 2; filtered := true;
                     queryParameters := ∅; additionalFields := no_fields |}
            "cats" VUndefined [hit_A; hit_B] VUndefined
          = Success meta "cats" answer kept raw
       /\ total meta = length processed
       /\ totalReturned meta = length kept
       /\ (filtered meta = true <-> totalReturned meta <> total meta).
Proof.
  split; [reflexivity |].
  apply (metadata_counts no_fields 2 "cats" ∅ three_hits).
  reflexivity.
Defined.

(** ** The batch loop and the error policy *)

(** The loop stops where it is: nothing more is added to the output. *)
Ltac stops_here := intros [= <- _]; exists []; by rewrite app_nil_r.

Section Loop.
Variable h : host.
Variable credentials : value.

(** One iteration whose transport call fails. *)
Lemma attempt_transport_failure i p query qp request error :
  request_for credentials qp = Normal request ->
  httpRequest h i request = Throw error ->
  attempt h credentials i p query qp = Throw error.
Proof. intros Hreq Hfail. unfold attempt. rewrite Hreq. simpl. by rewrite Hfail. Qed.

Lemma loop_step_failure i item rest returnData query qp error :
  prepare item (getNodeParameter h i) = Normal (query, qp) ->
  attempt h credentials i (getNodeParameter h i) query qp = Throw error ->
  loop h credentials i (item :: rest) returnData
  = if continueOnFail h
    then loop h credentials (S i) rest
           (returnData ++ [Failure (message h error) query])
    else (returnData, Throw error).
Proof. intros Hprep Hatt. simpl. by rewrite Hprep, Hatt. Qed.

(** Running the loop over [pre ++ post] is running it over [pre] and,
    when that ends normally, over [post] from where it stopped. *)
Lemma loop_app pre post : forall i returnData,
  loop h credentials i (pre ++ post) returnData
  = match loop h credentials i pre returnData with
    | (out, Normal _) => loop h credentials (i + length pre) post out
    | stopped => stopped
    end.
Proof.
  induction pre as [|item pre IH]; intros i returnData.
  - simpl. by rewrite Nat.add_0_r.
  - cbn [app loop length].
    replace (i + S (length pre))%nat with (S i + length pre)%nat by lia.
    destruct (prepare item (getNodeParameter h i)) as [[query qp] | |];
      [| done | done].
    destruct (attempt h credentials i (getNodeParameter h i) query qp);
      [apply IH | | done].
    destruct (continueOnFail h); [apply IH | done].
Qed.

(** The output list only grows, at its end. *)
Lemma loop_extends items : forall i returnData out r,
  loop h credentials i items returnData = (out, r) ->
  exists more, out = returnData ++ more.
Proof.
  induction items as [|item items IH]; intros i returnData out r.
  - stops_here.
  - cbn [loop].
    destruct (prepare item (getNodeParameter h i)) as [[query qp] | |];
      [| stops_here ..].
    destruct (attempt h credentials i (getNodeParameter h i) query qp)
      as [env | error |]; [| destruct (continueOnFail h) |];
      try stops_here;
      intros Hl; apply IH in Hl as [more ->];
      eexists; by rewrite <- app_assoc.
Qed.

(** A loop that runs to its end has added one envelope per item. *)
Lemma loop_one_per_item items : forall i returnData out,
  loop h credentials i items returnData = (out, Normal ()) ->
  length out = (length returnData + length items)%nat.
Proof.
  induction items as [|item items IH]; intros i returnData out.
  - intros [= <-]. simpl. lia.
  - cbn [loop].
    destruct (prepare item (getNodeParameter h i)) as [[query qp] | |];
      [| done | done].
    destruct (attempt h credentials i (getNodeParameter h i) query qp)
      as [env | error |]; [| destruct (continueOnFail h) |]; try done;
      intros Hl; apply IH in Hl; rewrite Hl, length_app; simpl; lia.
Qed.
End Loop.

(** C5: when the transport call of an item fails and continuation is
    allowed, the envelope [{success: false, error: message, query}] is
    appended after the envelopes of the items before it, one per item,
    and the loop goes on with the items after it, in order; when
    continuation is not allowed, the call raises that failure and
    returns no list. *)
Theorem transport_failure_policy (h : host) (credentials : value)
    (pre : list value) (item : value) (post : list value)
    (built : list envelope) (query : string) (qp : gmap string value)
    (request : http_request) (error : js_error) :
  getCredentials h = Normal credentials ->
  truthy credentials = true ->
  getInputData h = pre ++ item :: post ->
  loop h credentials 0 pre [] = (built, Normal ()) ->
  prepare item (getNodeParameter h (length pre)) = Normal (query, qp) ->
  request_for credentials qp = Normal request ->
  httpRequest h (length pre) request = Throw error ->
  if continueOnFail h
  then exists more r,
         loop h credentials (S (length pre)) post
           (built ++ [Failure (message h error) query])
         = (built ++ Failure (message h error) query :: more, r)
         /\ execute h
            = finish h (built ++ Failure (message h error) query :: more, r)
         /\ length built = length pre
  else execute h = Throw error.
Proof.
  intros Hcred Htruthy Hitems Hpre Hprep Hreq Hfail.
  assert (Hrun : run h
                 = if continueOnFail h
                   then loop h credentials (S (length pre)) post
                          (built ++ [Failure (message h error) query])
                   else (built, Throw error)).
  { unfold run. rewrite Hcred, Htruthy, Hitems, loop_app, Hpre. simpl.
    apply loop_step_failure with qp; [done |].
    by apply attempt_transport_failure with request. }
  unfold execute. rewrite Hrun.
  destruct (continueOnFail h) eqn:Hpolicy.
  - destruct (loop h credentials (S (length pre)) post
                (built ++ [Failure (message h error) query]))
      as [out r] eqn:Hloop.
    destruct (loop_extends _ _ _ _ _ _ _ Hloop) as [more ->].
    exists more, r. rewrite <- app_assoc. simpl.
    split; [done |]. split; [done |].
    by apply loop_one_per_item in Hpre.
  - simpl. by rewrite Hpolicy.
Qed.

(** C8: when credential resolution fails and continuation is allowed,
    the call returns the output built so far, which is the empty list;
    otherwise it raises the failure and returns nothing. *)
Theorem credential_failure_policy (h : host) (error : js_error) :
  credential_failure h = Some error ->
  execute h = if continueOnFail h then Normal [[]] else Throw error.
Proof.
  unfold credential_failure, execute, run.
  destruct (getCredentials h) as [credentials | e |]; [| | done].
  - destruct (truthy credentials); [done |]. by intros [= <-].
  - by intros [= <-].
Qed.

Lemma credential_failure_policy_witness :
  credential_failure (no_credentials_host true)
  = Some (NodeOperationError "No credentials got returned!")
  /\ execute (no_credentials_host true)
     = if continueOnFail (no_credentials_host true) then Normal [[]]
       else Throw (NodeOperationError "No credentials got returned!").
Proof.
  split; [reflexivity |].
  apply (credential_failure_policy (no_credentials_host true)).
  reflexivity.
Defined.

Lemma transport_failure_policy_witness :
  getCredentials (sample_host true) = Normal sample_credentials
  /\ truthy sample_credentials = true
  /\ getInputData (sample_host true) = [item_cats] ++ item_dogs :: [item_bare]
  /\ loop (sample_host true) sample_credentials 0 [item_cats] []
     = ([sample_success "cats"], Normal ())
  /\ prepare item_dogs (getNodeParameter (sample_host true) (length [item_cats]))
     = Normal ("dogs", sample_parameters "dogs")
  /\ request_for sample_credentials (sample_parameters "dogs")
     = Normal (sample_request "dogs")
  /\ httpRequest (sample_host true) (length [item_cats]) (sample_request "dogs")
     = Throw (HostError "API error")
  /\ if continueOnFail (sample_host true)
     then exists more r,
            loop (sample_host true) sample_credentials (S (length [item_cats]))
              [item_bare]
              ([sample_success "cats"]
                 ++ [Failure (message (sample_host true) (HostError "API error"))
                       "dogs"])
            = ([sample_success "cats"]
                 ++ Failure (message (sample_host true) (HostError "API error"))
                      "dogs" :: more, r)
            /\ execute (sample_host true)
               = finish (sample_host true)
                   ([sample_success "cats"]
                      ++ Failure (message (sample_host true)
                                    (HostError "API error")) "dogs" :: more, r)
            /\ length [sample_success "cats"] = length [item_cats]
     else execute (sample_host true) = Throw (HostError "API error").
Proof.
  do 7 (split; [reflexivity |]).
  apply (transport_failure_policy (sample_host true) sample_credentials
           [item_cats] item_dogs [item_bare]
           [sample_success "cats"] "dogs" (sample_parameters "dogs")
           (sample_request "dogs") (HostError "API error"));
    reflexivity.
Defined.

(** The scenario of the specification: the second of three transport
    calls fails. *)
Example continue_on_second_failure :
  execute (sample_host true)
  = Normal [[sample_success "cats"; Failure "API error" "dogs";
             sample_success "test query"]].
Proof. reflexivity. Qed.

Example abort_on_second_failure :
  execute (sample_host false) = Throw (HostError "API error").
Proof. reflexivity. Qed.

Set Warnings "-clear-no-such-hyp".

(** * Further properties *)

(** ** Outbound parameters *)

Lemma lookup_set_if_given o k (qp : gmap string value) :
  qp !! k = None ->
  set_if (truthy_str o) k (VStr (default "" o)) qp !! k = VStr <$> given o.
Proof.
  intros Hnone. rewrite lookup_set_if_eq. unfold truthy_str, given.
  destruct o as [s|]; [| done]. simpl. by destruct (String.eqb s "").
Qed.

Lemma str_or_given o d : str_or o d = default d (given o).
Proof. destruct o as [s|]; [| done]. simpl. by destruct (String.eqb s ""). Qed.

Lemma dom_set_if c k v (qp : gmap string value) :
  dom (set_if c k v qp) = if c then {[k]} ∪ dom qp else dom qp.
Proof. unfold set_if. destruct c; [apply dom_insert_L | done]. Qed.

(** X1: the parameters sent upstream always carry [q] (the resolved
    query), [categories] and [format], and never a key other than those
    and [language], [time_range], [safesearch], [pageno]: the limit, the
    field filter and the two response flags are never sent. *)
Theorem outbound_parameter_names (query : string) (categories : value)
    (af : additional_fields) (pageno : Z) (qp : gmap string value) :
  build_query_parameters query categories af pageno = Normal qp ->
  qp !! "q" = Some (VStr query)
  /\ {[ "q"; "categories"; "format" ]} ⊆ dom qp
  /\ dom qp ⊆ parameter_names.
Proof.
  unfold build_query_parameters.
  destruct (categories_param categories) as [cats | |]; simpl; try done.
  intros [= <-]. split.
  - unfold query_parameters. rewrite !lookup_set_if_ne by done.
    by rewrite !lookup_insert_ne, lookup_insert_eq by done.
  - unfold query_parameters, parameter_names.
    rewrite !dom_set_if, !dom_insert_L, dom_empty_L.
    destruct (0 <? pageno), (truthy_str (af_safesearch af)),
      (truthy_str (af_time_range af)), (truthy_str (af_language af));
      set_solver.
Qed.

Lemma outbound_parameter_names_witness :
  build_query_parameters "cats" (VStr "science") single_fields 3
  = Normal (query_parameters "cats" "science" single_fields 3)
  /\ query_parameters "cats" "science" single_fields 3 !! "q"
     = Some (VStr "cats")
  /\ {[ "q"; "categories"; "format" ]}
     ⊆ dom (query_parameters "cats" "science" single_fields 3)
  /\ dom (query_parameters "cats" "science" single_fields 3) ⊆ parameter_names.
Proof.
  split; [reflexivity |].
  apply (outbound_parameter_names "cats" (VStr "science") single_fields 3).
  reflexivity.
Defined.

(** X2: [language], [time_range] and [safesearch] are sent exactly when
    the additional field is present and not the empty string, with the
    value given; [format] is the given one, or ["json"] when it is absent
    or empty. *)
Theorem optional_parameters (query : string) (categories : value)
    (af : additional_fields) (pageno : Z) (qp : gmap string value) :
  build_query_parameters query categories af pageno = Normal qp ->
  qp !! "language" = VStr <$> given (af_language af)
  /\ qp !! "time_range" = VStr <$> given (af_time_range af)
  /\ qp !! "safesearch" = VStr <$> given (af_safesearch af)
  /\ qp !! "format" = Some (VStr (default "json" (given (af_format af)))).
Proof.
  unfold build_query_parameters.
  destruct (categories_param categories) as [cats | |]; simpl; try done.
  intros [= <-]. unfold query_parameters.
  split; [| split; [| split]].
  - rewrite !lookup_set_if_ne by done. by apply lookup_set_if_given.
  - rewrite !lookup_set_if_ne by done. apply lookup_set_if_given.
    by rewrite lookup_set_if_ne.
  - rewrite !lookup_set_if_ne by done. apply lookup_set_if_given.
    by rewrite !lookup_set_if_ne.
  - rewrite !lookup_set_if_ne by done.
    by rewrite lookup_insert_eq, str_or_given.
Qed.

Lemma optional_parameters_witness :
  build_query_parameters "cats" (VArr [VStr "general"])
    {| af_language := Some "en"; af_time_range := Some "";
       af_safesearch := Some "0"; af_filter := None; af_format := Some "";
       af_rawResponse := None; af_singleResponse := None |} 0
  = Normal {[ "q" := VStr "cats"; "categories" := VStr "general";
              "format" := VStr "json"; "language" := VStr "en";
              "safesearch" := VStr "0" ]}
  /\ ({[ "q" := VStr "cats"; "categories" := VStr "general";
         "format" := VStr "json"; "language" := VStr "en";
         "safesearch" := VStr "0" ]} : gmap string value) !! "language"
     = VStr <$> given (Some "en")
  /\ ({[ "q" := VStr "cats"; "categories" := VStr "general";
         "format" := VStr "json"; "language" := VStr "en";
         "safesearch" := VStr "0" ]} : gmap string value) !! "time_range"
     = VStr <$> given (Some "")
  /\ ({[ "q" := VStr "cats"; "categories" := VStr "general";
         "format" := VStr "json"; "language" := VStr "en";
         "safesearch" := VStr "0" ]} : gmap string value) !! "safesearch"
     = VStr <$> given (Some "0")
  /\ ({[ "q" := VStr "cats"; "categories" := VStr "general";
         "format" := VStr "json"; "language" := VStr "en";
         "safesearch" := VStr "0" ]} : gmap string value) !! "format"
     = Some (VStr (default "json" (given (Some "")))).
Proof.
  split; [reflexivity |].
  apply (optional_parameters "cats" (VArr [VStr "general"])
           {| af_language := Some "en"; af_time_range := Some "";
              af_safesearch := Some "0"; af_filter := None;
              af_format := Some ""; af_rawResponse := None;
              af_singleResponse := None |} 0).
  reflexivity.
Defined.

(** ** Field filtering *)

Lemma lookup_delete_field (props : gmap string value) f k :
  delete_field props f !! k
  = if negb (String.eqb k "") && String.eqb (trim f) k then None
    else props !! k.
Proof.
  unfold delete_field.
  destruct (String.eqb_spec (trim f) ""  ) as [Hempty | Hfull]; simpl.
  - destruct (String.eqb_spec k "") as [-> | Hk]; simpl; [done |].
    destruct (String.eqb_spec (trim f) k) as [<- | _]; [done | done].
  - destruct (String.eqb_spec (trim f) k) as [<- | Hne].
    + destruct (String.eqb_spec (trim f) ""); [done |]. simpl.
      by rewrite lookup_delete_eq.
    + rewrite andb_false_r. by rewrite lookup_delete_ne.
Qed.

Lemma lookup_foldl_delete_field filters : forall (props : gmap string value) k,
  foldl delete_field props filters !! k
  = if deleted_by filters k then None else props !! k.
Proof.
  unfold deleted_by.
  induction filters as [|f filters IH]; intros props k; simpl.
  - by rewrite andb_false_r.
  - rewrite IH, lookup_delete_field.
    destruct (negb (String.eqb k "")); simpl; [| done].
    destruct (String.eqb (trim f) k); simpl; [| done].
    by destruct (existsb _ filters).
Qed.

(** What is left of an object after the deletions, key by key. *)
Lemma lookup_apply_filters filters (props : gmap string value) k :
  apply_filters filters props !! k
  = if deleted_by filters k then None else props !! k.
Proof.
  destruct filters as [|f filters]; [by unfold deleted_by; rewrite andb_false_r |].
  apply lookup_foldl_delete_field.
Qed.

(** Two filter lists that name the same fields act alike. *)
Lemma apply_filters_ext filters1 filters2 (props : gmap string value) :
  (forall k, deleted_by filters1 k = deleted_by filters2 k) ->
  apply_filters filters1 props = apply_filters filters2 props.
Proof.
  intros Hsame. apply map_eq. intros k.
  by rewrite !lookup_apply_filters, Hsame.
Qed.

Lemma process_result_ext filters1 filters2 result :
  (forall k, deleted_by filters1 k = deleted_by filters2 k) ->
  process_result filters1 result = process_result filters2 result.
Proof.
  intros Hsame. destruct result; try done.
  rewrite !process_result_object. by rewrite (apply_filters_ext _ _ _ Hsame).
Qed.



(** Replace a closed term by its value. *)
Ltac evaluate t := let v := eval vm_compute in t in change t with v.

Ltac evaluate_trims :=
  repeat match goal with
         | |- context [trim ?f] => evaluate (trim f)
         end.


(** ** [split] and [trim] *)

Lemma split_nonempty sep s : split sep s <> [].
Proof.
  destruct s as [|c rest]; simpl; [done |].
  destruct (Ascii.eqb c sep); [done |]. by destruct (split sep rest).
Qed.

Lemma concat_cons_nonempty sep (w : string) (ws : list string) :
  ws <> [] -> String.concat sep (w :: ws) = w +:+ sep +:+ String.concat sep ws.
Proof. by destruct ws. Qed.

Lemma concat_cons_char sep c (w : string) (ws : list string) :
  String.concat sep (String c w :: ws) = String c (String.concat sep (w :: ws)).
Proof. by destruct ws. Qed.

(** X5: joining the pieces of [s.split(",")] with commas gives [s] back,
    so the filter list loses nothing of the filter string. *)
Theorem split_join_round_trip (s : string) :
  String.concat "," (split "," s) = s.
Proof.
  induction s as [|c rest IH]; [done |].
  cbn [split]. destruct (Ascii.eqb_spec c ",") as [-> | Hne].
  - rewrite concat_cons_nonempty by apply split_nonempty.
    simpl. by rewrite IH.
  - pose proof (split_nonempty "," rest) as Hnil.
    destruct (split "," rest) as [|w ws]; [done |].
    by rewrite concat_cons_char, IH.
Qed.












(** X7: the default the node's form proposes for "Fields Filter" and the
    default the code falls back on remove the same fields from every
    hit. *)
Theorem form_default_filter_is_code_default (af : additional_fields)
    (result : value) :
  process_result (filters_of (with_filter (Some filter_property_default) af))
    result
  = process_result (filters_of (with_filter None af)) result.
Proof.
  apply process_result_ext. intros k.
  evaluate (filters_of (with_filter (Some filter_property_default) af)).
  evaluate (filters_of (with_filter None af)).
  unfold deleted_by, existsb. evaluate_trims.
  destruct (String.eqb "thumbnail" k), (String.eqb "positions" k),
    (String.eqb "parsed_url" k); by rewrite ?orb_true_r.
Qed.

(** ** Processing a response *)

Lemma mapM_objects filters (hits : list (gmap string value)) :
  mapM (process_result filters) (map VObj hits)
  = Normal (map (emitted_hit filters) hits).
Proof.
  induction hits as [|props hits IH]; [done |].
  cbn [map mapM]. rewrite process_result_object, IH. done.
Qed.

Lemma mapM_nullish_hit filters (hits : list (gmap string value)) bad rest :
  nullish bad = true ->
  mapM (process_result filters) (map VObj hits ++ bad :: rest)
  = Throw (TypeError (ReadOfNullish "snippet")).
Proof.
  intros Hbad. induction hits as [|props hits IH].
  - by destruct bad.
  - cbn [map app mapM]. rewrite process_result_object, IH. done.
Qed.

Lemma take_length_take {A} n (l : list A) : take (length (take n l)) l = take n l.
Proof.
  rewrite length_take. destruct (Nat.le_gt_cases n (length l)) as [Hle | Hgt].
  - by rewrite Nat.min_l.
  - rewrite Nat.min_r by lia. rewrite !take_ge by lia. done.
Qed.

Lemma select_results_prefix single limit (results : list (gmap string value)) :
  (select_results single limit results).2
  = take (length (select_results single limit results).2) results.
Proof.
  assert (Hlimit : forall l : list (gmap string value),
             (if (0 <? limit) && (limit <? Z.of_nat (length l))
              then (VUndefined, take (Z.to_nat limit) l)
              else (VUndefined, l)).2
             = take (length (if (0 <? limit) && (limit <? Z.of_nat (length l))
                             then (VUndefined, take (Z.to_nat limit) l)
                             else (VUndefined, l)).2) l).
  { intros l. destruct ((0 <? limit) && _); simpl.
    - by rewrite take_length_take.
    - by rewrite take_ge. }
  unfold select_results.
  destruct single, results as [|first rest]; try apply Hlimit. done.
Qed.

Lemma select_results_limit limit (results : list (gmap string value)) :
  (select_results false limit results).2
  = if 0 <? limit then take (Z.to_nat limit) results else results.
Proof.
  unfold select_results.
  assert (Hcase : (if (0 <? limit) && (limit <? Z.of_nat (length results))
                   then (VUndefined, take (Z.to_nat limit) results)
                   else (VUndefined, results)).2
                  = if 0 <? limit then take (Z.to_nat limit) results
                    else results).
  { destruct (Z.ltb_spec 0 limit) as [Hpos | Hneg]; [| done]. simpl.
    destruct (Z.ltb_spec limit (Z.of_nat (length results))) as [Hlt | Hge];
      [done |].
    simpl. rewrite take_ge; [done | lia]. }
  by destruct results.
Qed.

(** The envelope, once the hits are processed. *)
Lemma process_response_processed af limit query qp response processed :
  processed_results (filters_of af) response = Normal processed ->
  process_response af limit query qp response
  = let selected :=
      select_results (truthy_flag (af_singleResponse af)) limit processed in
    Normal (Success {| total := length processed;
                       totalReturned := length selected.2;
                       filtered := negb (length selected.2
                                         =? length processed)%nat;
                       queryParameters := qp;
                       additionalFields := af |}
              query selected.1 selected.2
              (if truthy_flag (af_rawResponse af)
               then mutate_response (filters_of af) response
               else VUndefined)).
Proof.
  intros Hres. unfold process_response. rewrite Hres.
  cbn [mbind completion_bind].
  by destruct (select_results _ limit processed).
Qed.

(** X8: when every hit of the response is an object, each one is
    processed, in upstream order and one for one: the processed list is
    the raw list with the filter applied and the snippet added to each
    hit. *)
Theorem hits_processed_in_order (filters : list string) (response : value)
    (hits : list (gmap string value)) :
  get_prop response "results" = Normal (VArr (map VObj hits)) ->
  processed_results filters response = Normal (map (emitted_hit filters) hits).
Proof.
  intros Hres. unfold processed_results. rewrite Hres. simpl.
  apply mapM_objects.
Qed.

Lemma hits_processed_in_order_witness :
  get_prop three_hits "results" = Normal (VArr (map VObj raw_hits))
  /\ processed_results (filters_of no_fields) three_hits
     = Normal (map (emitted_hit (filters_of no_fields)) raw_hits).
Proof.
  split; [reflexivity |].
  apply (hits_processed_in_order (filters_of no_fields) three_hits raw_hits).
  reflexivity.
Defined.

(** X9: one [null] or [undefined] among the hits makes the processing
    of the whole response raise a [TypeError]: no envelope is built from
    the hits before it. *)
Theorem null_hit_fails_response (af : additional_fields) (limit : Z)
    (query : string) (qp : gmap string value) (response : value)
    (hits : list (gmap string value)) (bad : value) (rest : list value) :
  get_prop response "results" = Normal (VArr (map VObj hits ++ bad :: rest)) ->
  nullish bad = true ->
  process_response af limit query qp response
  = Throw (TypeError (ReadOfNullish "snippet")).
Proof.
  intros Hres Hbad. unfold process_response, processed_results.
  rewrite Hres. simpl. by rewrite mapM_nullish_hit.
Qed.

Lemma null_hit_fails_response_witness :
  get_prop (VObj {[ "results" := VArr [VObj {[ "title" := VStr "A" ]}; VNull] ]})
    "results"
  = Normal (VArr (map VObj [ {[ "title" := VStr "A" ]} ] ++ VNull :: []))
  /\ nullish VNull = true
  /\ process_response no_fields 10 "cats" ∅
       (VObj {[ "results" := VArr [VObj {[ "title" := VStr "A" ]}; VNull] ]})
     = Throw (TypeError (ReadOfNullish "snippet")).
Proof.
  split; [reflexivity |]. split; [reflexivity |].
  apply (null_hit_fails_response no_fields 10 "cats" ∅
           (VObj {[ "results" := VArr [VObj {[ "title" := VStr "A" ]}; VNull] ]})
           [ {[ "title" := VStr "A" ]} ] VNull []);
    reflexivity.
Defined.

(** X10: when [results] is missing from the response or is not an array,
    the envelope is a success with no results: both counts are [0],
    [filtered] is false and no answer is set, whatever the limit and the
    single-response flag. *)
Theorem no_results_envelope (af : additional_fields) (limit : Z)
    (query : string) (qp : gmap string value) (response r : value) :
  get_prop response "results" = Normal r ->
  is_array r = false ->
  exists raw,
    process_response af limit query qp response
    = Normal (Success {| total := 0; totalReturned := 0; filtered := false;
                         queryParameters := qp; additionalFields := af |}
                query VUndefined [] raw).
Proof.
  intros Hres Harr. unfold process_response, processed_results.
  rewrite Hres. simpl.
  assert (Hsel : select_results (truthy_flag (af_singleResponse af)) limit []
                 = (VUndefined, [])).
  { unfold select_results.
    assert ((0 <? limit) && (limit <? Z.of_nat (length (@nil (gmap string value))))
            = false) as Hno.
    { destruct (Z.ltb_spec 0 limit) as [Hpos | Hneg]; [| done].
      destruct (Z.ltb_spec limit (Z.of_nat (length (@nil (gmap string value)))))
        as [Hlt | Hge]; [| done].
      simpl in Hlt. lia. }
    destruct (truthy_flag _); by rewrite Hno. }
  destruct r; try done; simpl; rewrite Hsel; by eexists.
Qed.

Lemma no_results_envelope_witness :
  get_prop (VObj {[ "error" := VStr "rate limited" ]}) "results"
  = Normal VUndefined
  /\ is_array VUndefined = false
  /\ exists raw,
       process_response single_fields 10 "cats" ∅
         (VObj {[ "error" := VStr "rate limited" ]})
       = Normal (Success {| total := 0; totalReturned := 0; filtered := false;
                            queryParameters := ∅;
                            additionalFields := single_fields |}
                   "cats" VUndefined [] raw).
Proof.
  split; [reflexivity |]. split; [reflexivity |].
  apply (no_results_envelope single_fields 10 "cats" ∅
           (VObj {[ "error" := VStr "rate limited" ]}) VUndefined);
    reflexivity.
Defined.

(** X11: the results of an envelope are always the first so many of the
    processed hits, in upstream order: nothing is reordered or dropped
    from the middle, and [totalReturned] never exceeds [total]. *)
Theorem returned_results_are_a_prefix (af : additional_fields) (limit : Z)
    (query : string) (qp : gmap string value) (response : value)
    (env : envelope) :
  process_response af limit query qp response = Normal env ->
  exists processed meta,
    processed_results (filters_of af) response = Normal processed
    /\ meta_of env = Some meta
    /\ results_of env = take (totalReturned meta) processed
    /\ (totalReturned meta <= total meta)%nat.
Proof.
  unfold process_response.
  destruct (processed_results (filters_of af) response)
    as [processed | |]; simpl; try done.
  pose proof (select_results_prefix (truthy_flag (af_singleResponse af))
                limit processed) as Hpre.
  destruct (select_results _ limit processed) as [answer kept].
  simpl in Hpre. intros [= <-]. do 2 eexists.
  split; [done |]. split; [done |]. simpl. split; [done |].
  rewrite Hpre, length_take. lia.
Qed.

Lemma returned_results_are_a_prefix_witness :
  process_response no_fields 2 "cats" ∅ three_hits
  = Normal (Success {| total := 3; totalReturned := 2; filtered := true;
                       queryParameters := ∅; additionalFields := no_fields |}
              "cats" VUndefined [hit_A; hit_B] VUndefined)
  /\ exists processed meta,
       processed_results (filters_of no_fields) three_hits = Normal processed
       /\ meta_of (Success {| total := 3; totalReturned := 2; filtered := true;
                              queryParameters := ∅;
                              additionalFields := no_fields |}
                     "cats" VUndefined [hit_A; hit_B] VUndefined) = Some meta
       /\ results_of (Success {| total := 3; totalReturned := 2;
                                 filtered := true; queryParameters := ∅;
                                 additionalFields := no_fields |}
                        "cats" VUndefined [hit_A; hit_B] VUndefined)
          = take (totalReturned meta) processed
       /\ (totalReturned meta <= total meta)%nat.
Proof.
  split; [reflexivity |].
  apply (returned_results_are_a_prefix no_fields 2 "cats" ∅ three_hits).
  reflexivity.
Defined.

(** X12: without the single-response flag, a limit above [0] keeps the
    first [limit] processed hits (all of them when there are fewer), and
    a limit of [0] or below keeps them all. *)
Theorem limit_keeps_first (af : additional_fields) (limit : Z)
    (query : string) (qp : gmap string value) (response : value)
    (processed : list (gmap string value)) :
  truthy_flag (af_singleResponse af) = false ->
  processed_results (filters_of af) response = Normal processed ->
  exists env,
    process_response af limit query qp response = Normal env
    /\ results_of env
       = if 0 <? limit then take (Z.to_nat limit) processed else processed.
Proof.
  intros Hsingle Hres.
  rewrite (process_response_processed _ _ _ _ _ _ Hres), Hsingle.
  eexists. split; [reflexivity |]. apply select_results_limit.
Qed.

Lemma limit_keeps_first_witness :
  truthy_flag (af_singleResponse no_fields) = false
  /\ processed_results (filters_of no_fields) three_hits
     = Normal [hit_A; hit_B; hit_C]
  /\ exists env,
       process_response no_fields 0 "cats" ∅ three_hits = Normal env
       /\ results_of env
          = if 0 <? 0 then take (Z.to_nat 0) [hit_A; hit_B; hit_C]
            else [hit_A; hit_B; hit_C].
Proof.
  split; [reflexivity |]. split; [reflexivity |].
  apply (limit_keeps_first no_fields 0 "cats" ∅ three_hits
           [hit_A; hit_B; hit_C]);
    reflexivity.
Defined.

Lemma processed_results_head filters response props rest processed :
  get_prop response "results" = Normal (VArr (VObj props :: rest)) ->
  processed_results filters response = Normal processed ->
  exists more, processed = emitted_hit filters props :: more.
Proof.
  intros Hget. unfold processed_results. rewrite Hget.
  cbn [mbind completion_bind mapM]. rewrite process_result_object.
  cbn [mbind completion_bind].
  destruct (mapM (process_result filters) rest) as [more | |]; try done.
  intros [= <-]. by exists more.
Qed.

Lemma content_or_snippet_emitted filters (props : gmap string value) :
  content_or_snippet (emitted_hit filters props)
  = js_or (if deleted_by filters "content" then VUndefined
           else field (VObj props) "content")
          (js_or (field (VObj props) "snippet") (field (VObj props) "content")).
Proof.
  unfold content_or_snippet, emitted_hit.
  rewrite lookup_insert_eq, lookup_insert_ne by done.
  rewrite lookup_apply_filters. simpl.
  by destruct (deleted_by filters "content").
Qed.

(** X13: in single-response mode the answer comes from the first hit as
    filtered: its raw [content] when the filter leaves [content] in and
    it is truthy, and otherwise the saved snippet (raw [snippet], or
    else raw [content]).  Filtering [content] out therefore never
    empties the answer, but makes the raw [snippet] win over the raw
    [content]. *)
Theorem single_answer_after_filtering (af : additional_fields) (limit : Z)
    (query : string) (qp : gmap string value) (response : value)
    (props : gmap string value) (rest : list value)
    (processed : list (gmap string value)) :
  truthy_flag (af_singleResponse af) = true ->
  get_prop response "results" = Normal (VArr (VObj props :: rest)) ->
  processed_results (filters_of af) response = Normal processed ->
  exists env,
    process_response af limit query qp response = Normal env
    /\ answer_of env
       = js_or (if deleted_by (filters_of af) "content" then VUndefined
                else field (VObj props) "content")
               (js_or (field (VObj props) "snippet")
                      (field (VObj props) "content")).
Proof.
  intros Hsingle Hget Hres.
  destruct (processed_results_head _ _ _ _ _ Hget Hres) as [more ->].
  rewrite (process_response_processed _ _ _ _ _ _ Hres), Hsingle.
  eexists. split; [reflexivity |]. apply content_or_snippet_emitted.
Qed.

Lemma single_answer_after_filtering_witness :
  truthy_flag (af_singleResponse raw_fields) = true
  /\ get_prop (VObj {[ "results" :=
                 VArr [VObj {[ "content" := VStr "long text";
                               "snippet" := VStr "short" ]}] ]}) "results"
     = Normal (VArr (VObj {[ "content" := VStr "long text";
                             "snippet" := VStr "short" ]} :: []))
  /\ processed_results (filters_of raw_fields)
       (VObj {[ "results" :=
          VArr [VObj {[ "content" := VStr "long text";
                        "snippet" := VStr "short" ]}] ]})
     = Normal [ {[ "snippet" := VStr "short" ]} ]
  /\ exists env,
       process_response raw_fields 10 "cats" ∅
         (VObj {[ "results" :=
            VArr [VObj {[ "content" := VStr "long text";
                          "snippet" := VStr "short" ]}] ]})
       = Normal env
       /\ answer_of env
          = js_or (if deleted_by (filters_of raw_fields) "content"
                   then VUndefined
                   else field (VObj {[ "content" := VStr "long text";
                                       "snippet" := VStr "short" ]}) "content")
                  (js_or (field (VObj {[ "content" := VStr "long text";
                                         "snippet" := VStr "short" ]}) "snippet")
                         (field (VObj {[ "content" := VStr "long text";
                                         "snippet" := VStr "short" ]}) "content")).
Proof.
  split; [reflexivity |]. split; [reflexivity |]. split; [reflexivity |].
  apply (single_answer_after_filtering raw_fields 10 "cats" ∅
           (VObj {[ "results" :=
              VArr [VObj {[ "content" := VStr "long text";
                            "snippet" := VStr "short" ]}] ]})
           {[ "content" := VStr "long text"; "snippet" := VStr "short" ]} []
           [ {[ "snippet" := VStr "short" ]} ]);
    reflexivity.
Defined.

(** X14: [rawResponse] is [undefined] unless the raw-response flag is
    set; when it is set, the payload handed out is the response object
    after the deletions, so each of its hits has lost every field the
    filter names: it is not the response as the transport returned it. *)
Theorem raw_response_is_filtered (af : additional_fields) (limit : Z)
    (query : string) (qp : gmap string value) (rprops : gmap string value)
    (hits : list (gmap string value)) :
  rprops !! "results" = Some (VArr (map VObj hits)) ->
  exists env,
    process_response af limit query qp (VObj rprops) = Normal env
    /\ rawResponse_of env
       = (if truthy_flag (af_rawResponse af)
          then VObj (<["results" :=
                        VArr (map (fun props =>
                                     VObj (apply_filters (filters_of af) props))
                                hits)]> rprops)
          else VUndefined)
    /\ forall props k,
         deleted_by (filters_of af) k = true ->
         apply_filters (filters_of af) props !! k = None.
Proof.
  intros Hres.
  assert (Hget : get_prop (VObj rprops) "results" = Normal (VArr (map VObj hits)))
    by (simpl; by rewrite Hres).
  assert (Hproc : processed_results (filters_of af) (VObj rprops)
                  = Normal (map (emitted_hit (filters_of af)) hits)).
  { unfold processed_results. rewrite Hget. apply mapM_objects. }
  rewrite (process_response_processed _ _ _ _ _ _ Hproc).
  eexists. split; [reflexivity |]. split.
  - simpl. destruct (truthy_flag (af_rawResponse af)); [| done].
    rewrite Hres. by rewrite map_map.
  - intros props k Hdel. by rewrite lookup_apply_filters, Hdel.
Qed.

Lemma raw_response_is_filtered_witness :
  ({[ "results" := VArr (map VObj raw_hits) ]} : gmap string value) !! "results"
  = Some (VArr (map VObj raw_hits))
  /\ exists env,
       process_response raw_fields 10 "cats" ∅
         (VObj {[ "results" := VArr (map VObj raw_hits) ]})
       = Normal env
       /\ rawResponse_of env
          = (if truthy_flag (af_rawResponse raw_fields)
             then VObj (<["results" :=
                           VArr (map (fun props =>
                                        VObj (apply_filters
                                                (filters_of raw_fields) props))
                                   raw_hits)]>
                          {[ "results" := VArr (map VObj raw_hits) ]})
             else VUndefined)
       /\ forall props k,
            deleted_by (filters_of raw_fields) k = true ->
            apply_filters (filters_of raw_fields) props !! k = None.
Proof.
  split; [reflexivity |].
  apply (raw_response_is_filtered raw_fields 10 "cats" ∅
           {[ "results" := VArr (map VObj raw_hits) ]} raw_hits).
  reflexivity.
Defined.

(** With the flag set and [content] filtered, the hits of [rawResponse]
    have no [content] any more. *)
Example raw_response_without_content :
  rawResponse_of
    (default (Failure "" "")
       (match process_response raw_fields 10 "cats" ∅ three_hits with
        | Normal env => Some env
        | _ => None
        end))
  = VObj {[ "results" :=
       VArr [ VObj {[ "title" := VStr "A"; "thumbnail" := VStr "x" ]};
              VObj {[ "title" := VStr "B" ]};
              VObj {[ "title" := VStr "C"; "snippet" := VStr "s3" ]} ] ]}.
Proof. reflexivity. Qed.

(** ** The batch *)

Lemma run_with_credentials h credentials :
  getCredentials h = Normal credentials ->
  truthy credentials = true ->
  run h = loop h credentials 0 (getInputData h) [].
Proof. intros Hcred Htruthy. unfold run. by rewrite Hcred, Htruthy. Qed.

(** X15: a failure while the parameters of an item are built (a
    [categories] value without [join]) is not confined to that item: the
    batch stops there, the items after it are not processed, and the call
    returns the envelopes of the items before it when continuation is
    allowed, or raises otherwise. *)
Theorem parameter_failure_stops_batch (h : host) (credentials : value)
    (pre : list value) (item : value) (post : list value)
    (built : list envelope) (error : js_error) :
  getCredentials h = Normal credentials ->
  truthy credentials = true ->
  getInputData h = pre ++ item :: post ->
  loop h credentials 0 pre [] = (built, Normal ()) ->
  prepare item (getNodeParameter h (length pre)) = Throw error ->
  execute h = if continueOnFail h then Normal [built] else Throw error.
Proof.
  intros Hcred Htruthy Hitems Hpre Hprep.
  unfold execute. rewrite (run_with_credentials _ _ Hcred Htruthy).
  rewrite Hitems, loop_app, Hpre. cbn [loop Nat.add]. by rewrite Hprep.
Qed.

Lemma parameter_failure_stops_batch_witness :
  getCredentials (bad_categories_host true) = Normal sample_credentials
  /\ truthy sample_credentials = true
  /\ getInputData (bad_categories_host true)
     = [item_cats] ++ item_dogs :: [item_bare]
  /\ loop (bad_categories_host true) sample_credentials 0 [item_cats] []
     = ([sample_success "cats"], Normal ())
  /\ prepare item_dogs
       (getNodeParameter (bad_categories_host true) (length [item_cats]))
     = Throw (TypeError (NotAFunction "join"))
  /\ execute (bad_categories_host true)
     = if continueOnFail (bad_categories_host true)
       then Normal [[sample_success "cats"]]
       else Throw (TypeError (NotAFunction "join")).
Proof.
  do 5 (split; [reflexivity |]).
  apply (parameter_failure_stops_batch (bad_categories_host true)
           sample_credentials [item_cats] item_dogs [item_bare]
           [sample_success "cats"] (TypeError (NotAFunction "join")));
    reflexivity.
Defined.




Example null_response_batch :
  execute null_response_host
  = Normal [[sample_success "cats";
             Failure "Cannot read properties of null: results" "dogs";
             sample_success "test query"]].
Proof. reflexivity. Qed.

Lemma resolve_query_total item param_query :
  resolve_query item param_query = Normal (resolve_query_spec item param_query).
Proof.
  unfold resolve_query, resolve_query_spec, string_field.
  destruct (truthy item) eqn:Ht.
  - rewrite !(get_prop_truthy _ _ Ht). simpl.
    destruct (field item "query"); simpl; try done;
      destruct (field item "input"); simpl; try done;
      destruct (field item "prompt"); simpl; done.
  - by rewrite !(field_falsy _ _ Ht).
Qed.

Lemma prepare_query item p query qp :
  prepare item p = Normal (query, qp) ->
  query = resolve_query_spec item (p_query p).
Proof.
  unfold prepare. rewrite resolve_query_total. simpl.
  destruct (build_query_parameters _ _ _ _); simpl; try done.
  by intros [= <- _].
Qed.

Lemma process_response_success af limit query qp response env :
  process_response af limit query qp response = Normal env ->
  query_of env = query /\ success env = true.
Proof.
  unfold process_response.
  destruct (processed_results (filters_of af) response); simpl; try done.
  destruct (select_results _ limit _). by intros [= <-].
Qed.

Lemma attempt_success h credentials i p query qp env :
  attempt h credentials i p query qp = Normal env ->
  query_of env = query /\ success env = true.
Proof.
  unfold attempt.
  destruct (request_for credentials qp) as [request | |]; simpl; try done.
  destruct (httpRequest h i request) as [response | |]; simpl; try done.
  apply process_response_success.
Qed.

Lemma length_resolved_queries h items : forall i,
  length (resolved_queries h i items) = length items.
Proof. induction items as [|item items IH]; intros i; simpl; [done | by rewrite IH]. Qed.

Section Batch.
Variable h : host.
Variable credentials : value.

(** The queries of the envelopes follow the items, as far as the loop got. *)
Lemma loop_queries items : forall i returnData out r,
  loop h credentials i items returnData = (out, r) ->
  exists n, map query_of out
            = map query_of returnData ++ take n (resolved_queries h i items).
Proof.
  induction items as [|item items IH]; intros i returnData out r.
  - intros [= <- _]. exists 0%nat. by rewrite app_nil_r.
  - cbn [loop resolved_queries].
    destruct (prepare item (getNodeParameter h i)) as [[query qp] | |] eqn:Hprep;
      [| intros [= <- _]; exists 0%nat; by rewrite app_nil_r ..].
    apply prepare_query in Hprep as <-.
    destruct (attempt h credentials i (getNodeParameter h i) query qp)
      as [env | error |] eqn:Hatt.
    + apply attempt_success in Hatt as [Hq _].
      intros Hl. apply IH in Hl as [n ->]. exists (S n).
      rewrite map_app, <- app_assoc. simpl. by rewrite Hq.
    + destruct (continueOnFail h).
      * intros Hl. apply IH in Hl as [n ->]. exists (S n).
        by rewrite map_app, <- app_assoc.
      * intros [= <- _]. exists 0%nat. by rewrite app_nil_r.
    + intros [= <- _]. exists 0%nat. by rewrite app_nil_r.
Qed.

(** Without continuation the loop only ever adds success envelopes. *)
Lemma loop_all_success items : forall i returnData out r,
  continueOnFail h = false ->
  loop h credentials i items returnData = (out, r) ->
  Forall (fun e => success e = true) returnData ->
  Forall (fun e => success e = true) out.
Proof.
  intros i returnData out r Hpolicy. revert i returnData out r.
  induction items as [|item items IH]; intros i returnData out r.
  - by intros [= <- _].
  - cbn [loop]. rewrite Hpolicy.
    destruct (prepare item (getNodeParameter h i)) as [[query qp] | |];
      [| by intros [= <- _] ..].
    destruct (attempt h credentials i (getNodeParameter h i) query qp)
      as [env | error |] eqn:Hatt; [| by intros [= <- _] ..].
    apply attempt_success in Hatt as [_ Hs].
    intros Hl Hacc. apply IH in Hl; [done |].
    apply Forall_app. split; [done |]. by apply Forall_singleton.
Qed.

(** An error that escapes the loop is that of some item's parameters, or
    of its attempt with continuation off. *)
Lemma loop_throw_origin items : forall i returnData out error,
  loop h credentials i items returnData = (out, Throw error) ->
  exists j item,
    items !! j = Some item
    /\ (prepare item (getNodeParameter h (i + j)) = Throw error
        \/ (continueOnFail h = false
            /\ exists query qp,
                 prepare item (getNodeParameter h (i + j)) = Normal (query, qp)
                 /\ attempt h credentials (i + j) (getNodeParameter h (i + j))
                      query qp = Throw error)).
Proof.
  induction items as [|item items IH]; intros i returnData out error; [done |].
  cbn [loop].
  assert (Hlater : forall acc,
             loop h credentials (S i) items acc = (out, Throw error) ->
             exists j it,
               (item :: items) !! j = Some it
               /\ (prepare it (getNodeParameter h (i + j)) = Throw error
                   \/ (continueOnFail h = false
                       /\ exists query qp,
                            prepare it (getNodeParameter h (i + j))
                            = Normal (query, qp)
                            /\ attempt h credentials (i + j)
                                 (getNodeParameter h (i + j)) query qp
                               = Throw error))).
  { intros acc Hl. apply IH in Hl as (j & it & Hj & Hwhy).
    exists (S j), it. split; [done |].
    by replace (i + S j)%nat with (S i + j)%nat by lia. }
  destruct (prepare item (getNodeParameter h i)) as [[query qp] | e |] eqn:Hprep;
    [| | done].
  - destruct (attempt h credentials i (getNodeParameter h i) query qp)
      as [env | e |] eqn:Hatt; [apply Hlater | | done].
    destruct (continueOnFail h) eqn:Hpolicy; [apply Hlater |].
    intros [= _ <-]. exists 0%nat, item. rewrite Nat.add_0_r.
    split; [done |]. right. split; [done |]. by exists query, qp.
  - intros [= _ <-]. exists 0%nat, item. rewrite Nat.add_0_r.
    split; [done |]. by left.
Qed.
End Batch.

(** X17: when continuation is off and the call returns, it returns one
    output list holding one envelope per input item, every one of them a
    success envelope: a failure envelope is never produced. *)
Theorem strict_run_all_success (h : host) (out : list (list envelope)) :
  continueOnFail h = false ->
  execute h = Normal out ->
  exists envs,
    out = [envs]
    /\ length envs = length (getInputData h)
    /\ Forall (fun e => success e = true) envs.
Proof.
  intros Hpolicy. unfold execute, run.
  destruct (getCredentials h) as [credentials | e |];
    [| by simpl; rewrite Hpolicy | done].
  destruct (truthy credentials); [| by simpl; rewrite Hpolicy].
  destruct (loop h credentials 0 (getInputData h) []) as [envs [[] | e |]] eqn:Hl;
    simpl; [| by rewrite Hpolicy | done].
  intros [= <-]. exists envs. split; [done |]. split.
  - by apply loop_one_per_item in Hl.
  - by apply (loop_all_success _ _ _ _ _ _ _ Hpolicy Hl).
Qed.

Lemma strict_run_all_success_witness :
  continueOnFail (steady_host false) = false
  /\ execute (steady_host false)
     = Normal [[sample_success "cats"; sample_success "dogs";
                sample_success "test query"]]
  /\ exists envs,
       [[sample_success "cats"; sample_success "dogs";
         sample_success "test query"]] = [envs]
       /\ length envs = length (getInputData (steady_host false))
       /\ Forall (fun e => success e = true) envs.
Proof.
  split; [reflexivity |]. split; [reflexivity |].
  apply (strict_run_all_success (steady_host false)); reflexivity.
Defined.

(** X18: whenever the call returns, it returns one output list, with at
    most one envelope per input item and in input order: the envelope at
    each position, success or failure, carries the query resolved for the
    item at that position. *)
Theorem envelopes_follow_input_order (h : host) (out : list (list envelope)) :
  execute h = Normal out ->
  exists envs,
    out = [envs]
    /\ (length envs <= length (getInputData h))%nat
    /\ map query_of envs
       = take (length envs) (resolved_queries h 0 (getInputData h)).
Proof.
  unfold execute.
  assert (Hrun : exists n,
             map query_of (run h).1
             = take n (resolved_queries h 0 (getInputData h))).
  { unfold run. destruct (getCredentials h) as [credentials | e |];
      [| by exists 0%nat ..].
    destruct (truthy credentials); [| by exists 0%nat].
    destruct (loop h credentials 0 (getInputData h) []) as [envs r] eqn:Hl.
    by apply loop_queries in Hl. }
  destruct Hrun as [n Hn].
  assert (Hshape : forall envs,
             (run h).1 = envs ->
             (length envs <= length (getInputData h))%nat
             /\ map query_of envs
                = take (length envs) (resolved_queries h 0 (getInputData h))).
  { intros envs <-.
    assert (Hlen : length (run h).1
                   = length (take n (resolved_queries h 0 (getInputData h))))
      by (by rewrite <- Hn, length_map).
    split.
    - rewrite Hlen, length_take, length_resolved_queries. lia.
    - by rewrite Hlen, take_length_take. }
  destruct (run h) as [envs [u | e |]]; simpl; [| | done].
  - intros [= <-]. exists envs. split; [done |]. by apply Hshape.
  - destruct (continueOnFail h); [| done].
    intros [= <-]. exists envs. split; [done |]. by apply Hshape.
Qed.

Lemma envelopes_follow_input_order_witness :
  execute (sample_host true)
  = Normal [[sample_success "cats"; Failure "API error" "dogs";
             sample_success "test query"]]
  /\ exists envs,
       [[sample_success "cats"; Failure "API error" "dogs";
         sample_success "test query"]] = [envs]
       /\ (length envs <= length (getInputData (sample_host true)))%nat
       /\ map query_of envs
          = take (length envs)
              (resolved_queries (sample_host true) 0
                 (getInputData (sample_host true))).
Proof.
  split; [reflexivity |].
  apply (envelopes_follow_input_order (sample_host true)). reflexivity.
Defined.

(** X19: the call raises only with continuation off, and what it raises
    then is the failure of the credentials, or of the parameters of some
    item, or of the attempt (transport and processing) of some item. *)
Theorem raised_error_origin (h : host) (error : js_error) :
  execute h = Throw error ->
  continueOnFail h = false
  /\ (credential_failure h = Some error
      \/ exists credentials j item,
           getCredentials h = Normal credentials
           /\ getInputData h !! j = Some item
           /\ (prepare item (getNodeParameter h j) = Throw error
               \/ exists query qp,
                    prepare item (getNodeParameter h j) = Normal (query, qp)
                    /\ attempt h credentials j (getNodeParameter h j) query qp
                       = Throw error)).
Proof.
  unfold execute, finish. intros Hexec.
  assert (Hpolicy : continueOnFail h = false).
  { destruct (run h) as [envs [u | e |]]; try done.
    by destruct (continueOnFail h). }
  split; [done |]. rewrite Hpolicy in Hexec.
  unfold run, credential_failure in *.
  destruct (getCredentials h) as [credentials | e |]; [| | done].
  - destruct (truthy credentials).
    + right.
      destruct (loop h credentials 0 (getInputData h) [])
        as [envs [u | e |]] eqn:Hl; try done.
      injection Hexec as ->.
      apply loop_throw_origin in Hl as (j & item & Hj & Hwhy).
      exists credentials, j, item. split; [done |]. split; [done |].
      destruct Hwhy as [Hprep | [_ Hatt]]; [by left | by right].
    + left. by injection Hexec as ->.
  - left. by injection Hexec as ->.
Qed.

Lemma raised_error_origin_witness :
  execute (sample_host false) = Throw (HostError "API error")
  /\ continueOnFail (sample_host false) = false
  /\ (credential_failure (sample_host false) = Some (HostError "API error")
      \/ exists credentials j item,
           getCredentials (sample_host false) = Normal credentials
           /\ getInputData (sample_host false) !! j = Some item
           /\ (prepare item (getNodeParameter (sample_host false) j)
               = Throw (HostError "API error")
               \/ exists query qp,
                    prepare item (getNodeParameter (sample_host false) j)
                    = Normal (query, qp)
                    /\ attempt (sample_host false) credentials j
                         (getNodeParameter (sample_host false) j) query qp
                       = Throw (HostError "API error"))).
Proof.
  split; [reflexivity |].
  apply (raised_error_origin (sample_host false) (HostError "API error")).
  reflexivity.
Defined.

(** X20: what a success envelope records is what was sent: its
    [metadata.queryParameters] is the [qs] of the request the transport
    got and its [metadata.additionalFields] the collection of the item.
    The request is a GET on the credentials' [apiUrl] followed by
    [/search], with the [apiKey] as bearer token; a missing [apiUrl] does
    not stop the request, it is sent to [undefined/search]. *)
Theorem envelope_records_request (h : host) (credentials : value) (i : nat)
    (p : node_parameters) (query : string) (qp : gmap string value)
    (env : envelope) :
  truthy credentials = true ->
  attempt h credentials i p query qp = Normal env ->
  exists request response meta,
    request_for credentials qp = Normal request
    /\ httpRequest h i request = Normal response
    /\ method request = "GET"
    /\ url request = to_string (field credentials "apiUrl") +:+ "/search"
    /\ headers request !! "Authorization"
       = Some ("Bearer " +:+ to_string (field credentials "apiKey"))
    /\ meta_of env = Some meta
    /\ queryParameters meta = qs request
    /\ additionalFields meta = p_additionalFields p.
Proof.
  intros Htruthy. unfold attempt, request_for.
  rewrite !(get_prop_truthy _ _ Htruthy). cbn [mbind completion_bind].
  match goal with
  | |- context [httpRequest h i ?r] => set (request := r)
  end.
  destruct (httpRequest h i request) as [response | |] eqn:Hresp; try done.
  cbn [mbind completion_bind]. unfold process_response.
  destruct (processed_results _ response) as [processed | |]; try done.
  cbn [mbind completion_bind].
  destruct (select_results _ _ processed) as [answer kept].
  intros [= <-]. exists request, response. eexists.
  split; [done |]. split; [done |]. split; [done |]. split; [done |].
  split; [subst request; cbn [headers]; by rewrite lookup_insert_eq |]. done.
Qed.

Lemma envelope_records_request_witness :
  truthy (VObj {[ "apiKey" := VStr "k" ]}) = true
  /\ attempt (steady_host true) (VObj {[ "apiKey" := VStr "k" ]}) 0
       (getNodeParameter (steady_host true) 0) "cats" (sample_parameters "cats")
     = Normal (sample_success "cats")
  /\ exists request response meta,
       request_for (VObj {[ "apiKey" := VStr "k" ]}) (sample_parameters "cats")
       = Normal request
       /\ httpRequest (steady_host true) 0 request = Normal response
       /\ method request = "GET"
       /\ url request
          = to_string (field (VObj {[ "apiKey" := VStr "k" ]}) "apiUrl")
            +:+ "/search"
       /\ headers request !! "Authorization"
          = Some ("Bearer "
                  +:+ to_string (field (VObj {[ "apiKey" := VStr "k" ]}) "apiKey"))
       /\ meta_of (sample_success "cats") = Some meta
       /\ queryParameters meta = qs request
       /\ additionalFields meta
          = p_additionalFields (getNodeParameter (steady_host true) 0).
Proof.
  split; [reflexivity |]. split; [reflexivity |].
  apply (envelope_records_request (steady_host true)
           (VObj {[ "apiKey" := VStr "k" ]}) 0
           (getNodeParameter (steady_host true) 0) "cats"
           (sample_parameters "cats") (sample_success "cats"));
    reflexivity.
Defined.

(** X21: [metadata.filtered] tells whether hits were cut off, not whether
    fields were removed: in single-response mode with at least one hit it
    holds exactly when there was more than one hit; otherwise it holds
    exactly when the limit is above [0] and below the number of hits. *)
Theorem filtered_means_truncated (af : additional_fields) (limit : Z)
    (query : string) (qp : gmap string value) (response : value)
    (processed : list (gmap string value)) :
  processed_results (filters_of af) response = Normal processed ->
  exists env meta,
    process_response af limit query qp response = Normal env
    /\ meta_of env = Some meta
    /\ filtered meta
       = if truthy_flag (af_singleResponse af) && (0 <? length processed)%nat
         then (1 <? length processed)%nat
         else (0 <? limit) && (limit <? Z.of_nat (length processed)).
Proof.
  intros Hres. rewrite (process_response_processed _ _ _ _ _ _ Hres).
  do 2 eexists. split; [reflexivity |]. split; [reflexivity |].
  cbn [filtered]. unfold select_results.
  assert (Hlimit : negb (Nat.eqb
                           (length (if (0 <? limit)
                                       && (limit <? Z.of_nat (length processed))
                                    then (VUndefined : value,
                                          take (Z.to_nat limit) processed)
                                    else (VUndefined, processed)).2)
                           (length processed))
                   = (0 <? limit) && (limit <? Z.of_nat (length processed))).
  { destruct (Z.ltb_spec 0 limit) as [Hpos | Hneg]; cbn [andb snd].
    - destruct (Z.ltb_spec limit (Z.of_nat (length processed))) as [Hlt | Hge];
        cbn [snd].
      + rewrite length_take. apply negb_true_iff, Nat.eqb_neq. lia.
      + by rewrite Nat.eqb_refl.
    - by rewrite Nat.eqb_refl. }
  destruct (truthy_flag (af_singleResponse af)); [| by destruct processed].
  destruct processed as [|first rest]; [exact Hlimit |].
  cbn [andb snd length]. by destruct rest.
Qed.

Lemma filtered_means_truncated_witness :
  processed_results (filters_of single_fields) three_hits
  = Normal [hit_A; hit_B; hit_C]
  /\ exists env meta,
       process_response single_fields 10 "cats" ∅ three_hits = Normal env
       /\ meta_of env = Some meta
       /\ filtered meta
          = if truthy_flag (af_singleResponse single_fields)
               && (0 <? length [hit_A; hit_B; hit_C])%nat
            then (1 <? length [hit_A; hit_B; hit_C])%nat
            else (0 <? 10) && (10 <? Z.of_nat (length [hit_A; hit_B; hit_C])).
Proof.
  split; [reflexivity |].
  apply (filtered_means_truncated single_fields 10 "cats" ∅ three_hits
           [hit_A; hit_B; hit_C]).
  reflexivity.
Defined.

Lemma loop_items_independent h credentials items : forall i returnData out,
  loop h credentials i items returnData = (out, Normal ()) ->
  forall j,
    out !! (length returnData + j)%nat
    = items !! j ≫= item_envelope h credentials (i + j).
Proof.
  induction items as [|item items IH]; intros i returnData out.
  - intros [= <-] j. simpl. apply lookup_ge_None. lia.
  - cbn [loop]. intros Hl j.
    assert (Hnext : forall env,
               item_envelope h credentials i item = Some env ->
               loop h credentials (S i) items (returnData ++ [env])
               = (out, Normal ()) ->
               out !! (length returnData + j)%nat
               = (item :: items) !! j
                   ≫= item_envelope h credentials (i + j)).
    { intros env Henv Hrest. destruct j as [|j].
      - rewrite !Nat.add_0_r. simpl. rewrite Henv.
        destruct (loop_extends _ _ _ _ _ _ _ Hrest) as [more ->].
        rewrite <- app_assoc. by rewrite lookup_app_r, Nat.sub_diag by lia.
      - specialize (IH _ _ _ Hrest j). rewrite length_app in IH. simpl in IH.
        replace (length returnData + S j)%nat
          with (length returnData + 1 + j)%nat by lia.
        rewrite IH. simpl.
        by replace (i + S j)%nat with (S (i + j)) by lia. }
    destruct (prepare item (getNodeParameter h i)) as [[query qp] | |]
      eqn:Hprep; try done.
    destruct (attempt h credentials i (getNodeParameter h i) query qp)
      as [env | error |] eqn:Hatt; try done.
    + apply (Hnext env); [| done].
      unfold item_envelope. by rewrite Hprep, Hatt.
    + destruct (continueOnFail h) eqn:Hpolicy; [| done].
      apply (Hnext (Failure (message h error) query)); [| done].
      unfold item_envelope. by rewrite Hprep, Hatt, Hpolicy.
Qed.

(** X22: in a run that goes through the whole batch, the envelope at
    each position is the one its own item gives: it depends on that item,
    its parameters and the transport's answer to it, never on the items
    before it or on how they ended. *)
Theorem items_are_independent (h : host) (envs : list envelope) :
  run h = (envs, Normal ()) ->
  exists credentials,
    getCredentials h = Normal credentials
    /\ forall j,
         envs !! j = getInputData h !! j ≫= item_envelope h credentials j.
Proof.
  unfold run.
  destruct (getCredentials h) as [credentials | e |]; try done.
  destruct (truthy credentials); [| done].
  intros Hl. exists credentials. split; [done |].
  intros j. apply (loop_items_independent _ _ _ _ _ _ Hl j).
Qed.

Lemma items_are_independent_witness :
  run (sample_host true)
  = ([sample_success "cats"; Failure "API error" "dogs";
      sample_success "test query"], Normal ())
  /\ exists credentials,
       getCredentials (sample_host true) = Normal credentials
       /\ forall j,
            [sample_success "cats"; Failure "API error" "dogs";
             sample_success "test query"] !! j
            = getInputData (sample_host true) !! j
                ≫= item_envelope (sample_host true) credentials j.
Proof.
  split; [reflexivity |].
  apply (items_are_independent (sample_host true)). reflexivity.
Defined.
